(** * SETools: initial SIDs and the apol TE rule query tab

    A shallow embedding of

    - [setools/policyrep/initsid.py]: [initialsid_factory] and the
      [InitialSID] symbol;
    - [setoolsgui/apol/terulequery.py]: the criteria slots of
      [TERuleQueryTab], its [run] method and [ResultsUpdater.update].

    Python objects whose identity matters ([InitialSID] instances) live in
    an explicit store; exceptions are values of [exn]; the Qt widgets are
    records of the properties the code reads and writes. *)

From Equations Require Import Equations.
From Stdlib Require Import Ascii.
From stdpp Require Import base option strings list gmap pretty sorting.

Set Default Proof Using "Type*".

(** ** Python strings *)

Module Py.

(** The exceptions that the embedded code raises or lets through. *)
Inductive exn :=
| ValueError (msg : string)
| TypeError (msg : string)
| IndexError (msg : string)
| InvalidInitialSid (msg : string)
| OtherError (msg : string).

(** [str(ex)] of an exception built from one message. *)
Definition str_exn (e : exn) : string :=
  match e with
  | ValueError m | TypeError m | IndexError m
  | InvalidInitialSid m | OtherError m => m
  end.

Definition digit_of (c : Ascii.ascii) : option nat :=
  let n := Ascii.nat_of_ascii c in
  if bool_decide (48 ≤ n ≤ 57) then Some (n - 48) else None.

(** [tpl.format(a0, a1, ...)] for templates with numbered fields [{N}].
    [field] is [Some n] while the digits of a replacement field are read.
    A field index past the arguments raises [IndexError]; a brace that is
    not part of a numbered field raises [ValueError]. *)
Fixpoint format_from (field : option nat) (tpl : string) (args : list string)
  : exn + string :=
  match tpl with
  | EmptyString =>
      match field with
      | None => inr EmptyString
      | Some _ => inl (ValueError "expected '}' before end of string")
      end
  | String c rest =>
      match field with
      | None =>
          if Ascii.eqb c "{"%char then format_from (Some 0) rest args
          else if Ascii.eqb c "}"%char then
            inl (ValueError "Single '}' encountered in format string")
          else
            match format_from None rest args with
            | inr s => inr (String c s)
            | inl e => inl e
            end
      | Some n =>
          if Ascii.eqb c "}"%char then
            match args !! n with
            | Some a =>
                match format_from None rest args with
                | inr s => inr (a +:+ s)
                | inl e => inl e
                end
            | None => inl (IndexError "tuple index out of range")
            end
          else
            match digit_of c with
            | Some d => format_from (Some (10 * n + d)) rest args
            | None => inl (ValueError "unsupported replacement field")
            end
      end
  end.

Definition format (tpl : string) (args : list string) : exn + string :=
  format_from None tpl args.

(** A text without braces: a part of a template that [format] copies. *)
Fixpoint brace_free (s : string) : bool :=
  match s with
  | EmptyString => true
  | String c rest =>
      negb (Ascii.eqb c "{"%char) && negb (Ascii.eqb c "}"%char)
      && brace_free rest
  end.

(** *** Computations over a mutable state that return or raise

    A method that mutates [self] (or allocates objects) and may raise is a
    function from the state before to the outcome and the state after; what
    was written before an exception is raised stays written. *)

Definition M (S A : Type) : Type := S → (exn + A) * S.

Definition ret {S A} (a : A) : M S A := λ σ, (inr a, σ).
Definition raise {S A} (e : exn) : M S A := λ σ, (inl e, σ).
Definition bind {S A B} (m : M S A) (k : A → M S B) : M S B :=
  λ σ, match m σ with
       | (inr a, σ') => k a σ'
       | (inl e, σ') => (inl e, σ')
       end.
Definition get {S} : M S S := λ σ, (inr σ, σ).
Definition gets {S A} (f : S → A) : M S A := λ σ, (inr (f σ), σ).
Definition modify {S} (f : S → S) : M S unit := λ σ, (inr tt, f σ).
Definition lift_result {S A} (r : exn + A) : M S A := λ σ, (r, σ).

(** [try: body  except ValueError: handler] *)
Definition try_except_ValueError {S A} (body handler : M S A) : M S A :=
  λ σ, match body σ with
       | (inl (ValueError _), σ') => handler σ'
       | r => r
       end.

(** [try: body  except Exception as ex: handler(ex)] *)
Definition try_except_Exception {S A} (body : M S A) (handler : exn → M S A)
  : M S A :=
  λ σ, match body σ with
       | (inl ex, σ') => handler ex σ'
       | r => r
       end.

Global Instance M_ret {S} : MRet (M S) := λ A, ret.
Global Instance M_bind {S} : MBind (M S) := λ A B k m, bind m k.

End Py.

Import Py.

(** [str(x)]: Python's [__str__] protocol. *)
Class Str (A : Type) := str : A → string.
Global Hint Mode Str ! : typeclass_instances.

Global Instance str_string : Str string := λ s, s.
Global Instance str_exception : Str exn := str_exn.
Global Instance str_nat : Str nat := pretty.

(** ** [setools/policyrep/initsid.py] *)

Module initsid.

(** Identity of a Python object in the store. *)
Definition objref := positive.

(** What [qpol.qpol_isid_t(policy, x)] is called with when [x] is not
    already a [qpol_isid_t]: a name, or some other object. *)
Inductive ctor_arg :=
| ByName (name : string)
| ByObject (r : objref).

(** Outcome of the [qpol_isid_t] constructor of the SWIG layer: the handle,
    a [ValueError] (no such initial SID), or a [TypeError] (the argument is
    not a string). *)
Inductive ctor_result (H : Type) :=
| Found (h : H)
| RaisesValueError (msg : string)
| RaisesTypeError (msg : string).
Arguments Found {H} h.
Arguments RaisesValueError {H} msg.
Arguments RaisesTypeError {H} msg.

(** The part of the qpol module that [initsid.py] calls.  qpol is the
    native policy layer and is not part of these sources; it is taken as an
    interface, together with the rendering of a context. *)
Class Qpol := {
  qpol_policy_t : Type;
  qpol_isid_t : Type;
  qpol_context_t : Type;
  (** [qpol.qpol_isid_t(policy, x)] *)
  qpol_isid_t_new : qpol_policy_t → ctor_arg → ctor_result qpol_isid_t;
  (** [h.name(policy)] *)
  qpol_isid_name : qpol_isid_t → qpol_policy_t → string;
  (** [h.context(policy)] *)
  qpol_isid_context : qpol_isid_t → qpol_policy_t → qpol_context_t;
  (** [str] of the [Context] symbol wrapping a raw context *)
  qpol_context_str : qpol_context_t → qpol_policy_t → string;
}.

Section policyrep.
Context `{Qpol}.

(** An [InitialSID] object.  Its base class [symbol.PolicySymbol] is not
    part of these sources; the attributes are the two that [initsid.py]
    reads, [self.policy] and [self.qpol_symbol], which hold the arguments
    of [InitialSID(policy, qpol_symbol)]. *)
Record InitialSID := {
  policy : qpol_policy_t;
  qpol_symbol : qpol_isid_t;
}.

(** The object built by [context.context_factory(policy, raw)];
    [context.py] is not part of these sources, and the object is kept as
    the pair it is built from. *)
Record PolicyContext := {
  context_policy : qpol_policy_t;
  context_qpol_symbol : qpol_context_t;
}.

Definition context_factory (p : qpol_policy_t) (c : qpol_context_t)
  : PolicyContext :=
  {| context_policy := p; context_qpol_symbol := c |}.

(** [str(self)]: the name that the raw symbol has in the policy. *)
Global Instance str_InitialSID : Str InitialSID :=
  λ self, qpol_isid_name (qpol_symbol self) (policy self).

Global Instance str_PolicyContext : Str PolicyContext :=
  λ c, qpol_context_str (context_qpol_symbol c) (context_policy c).

(** The [context] property. *)
Definition context (self : InitialSID) : PolicyContext :=
  context_factory (policy self)
                  (qpol_isid_context (qpol_symbol self) (policy self)).

Definition statement (self : InitialSID) : exn + string :=
  format "sid {0} {1}" [str self; str (context self)].

(** *** The object store *)

(** The [InitialSID] instances alive, by identity. *)
Abbreviation store := (gmap objref InitialSID).

(** [InitialSID(policy, h)]: a new object, at an identity not in use. *)
Definition new_InitialSID (p : qpol_policy_t) (h : qpol_isid_t)
  : M store objref :=
  λ σ, let r := fresh (dom σ) in
       (inr r, <[r := {| policy := p; qpol_symbol := h |}]> σ).

(** [qpol.qpol_isid_t(policy, x)] as a computation. *)
Definition qpol_isid_t_call (p : qpol_policy_t) (a : ctor_arg)
  : M store qpol_isid_t :=
  match qpol_isid_t_new p a with
  | Found h => ret h
  | RaisesValueError m => raise (ValueError m)
  | RaisesTypeError m => raise (TypeError m)
  end.

(** The values [initialsid_factory] is given as [symbol]. *)
Inductive pyval :=
| PyIsid (h : qpol_isid_t)
| PyOther (a : ctor_arg).

(** [str(symbol)] for the values that reach the error message. *)
Definition str_ctor_arg (a : ctor_arg) : M store string :=
  match a with
  | ByName n => ret n
  | ByObject r =>
      σ ← get ;
      match σ !! r with
      | Some o => ret (str o)
      | None => raise (OtherError "dangling reference")
      end
  end.

Definition initialsid_factory (p : qpol_policy_t) (symbol : pyval)
  : M store objref :=
  match symbol with
  | PyIsid h => new_InitialSID p h
  | PyOther a =>
      try_except_ValueError
        (h ← qpol_isid_t_call p a ; new_InitialSID p h)
        (s ← str_ctor_arg a ;
         msg ← lift_result (format "{0} is not a valid initial sid" [s]) ;
         raise (InvalidInitialSid msg))
  end.

(** A reference passed as an argument denotes a live object. *)
Definition arg_alive (symbol : pyval) (σ : store) : Prop :=
  match symbol with
  | PyOther (ByObject r) => is_Some (σ !! r)
  | _ => True
  end.

(** The raw handle [h] is the initial SID named [n] in policy [p]. *)
Definition real_isid (p : qpol_policy_t) (h : qpol_isid_t) : Prop :=
  ∃ n, qpol_isid_t_new p (ByName n) = Found h.

(** The argument denotes an initial SID of the policy. *)
Definition corresponds (p : qpol_policy_t) (symbol : pyval) : Prop :=
  match symbol with
  | PyIsid h => real_isid p h
  | PyOther a => ∃ h, qpol_isid_t_new p a = Found h
  end.

End policyrep.

(** *** A fixture policy

    A small provider over which the factory can be run: a policy is the
    list of its initial SID records, a raw handle is such a record, and
    looking a name up scans the list.  Anything that is not a string is
    refused by the constructor with a [TypeError]. *)

Module fixture.

Record raw_context := {
  ctx_user : string;
  ctx_role : string;
  ctx_type : string;
  ctx_range : option string;
}.

Record isid_datum := {
  datum_name : string;
  datum_context : raw_context;
}.

Definition render_context (c : raw_context) : string :=
  ctx_user c +:+ ":" +:+ ctx_role c +:+ ":" +:+ ctx_type c +:+
  match ctx_range c with
  | Some r => ":" +:+ r
  | None => ""
  end.

Definition lookup_isid (p : list isid_datum) (a : ctor_arg)
  : ctor_result isid_datum :=
  match a with
  | ByName n =>
      match List.find (λ d, String.eqb (datum_name d) n) p with
      | Some d => Found d
      | None => RaisesValueError "Isid does not exist"
      end
  | ByObject _ => RaisesTypeError "argument 2 of type 'char const *'"
  end.

Definition qpol : Qpol := {|
  qpol_policy_t := list isid_datum;
  qpol_isid_t := isid_datum;
  qpol_context_t := raw_context;
  qpol_isid_t_new := lookup_isid;
  qpol_isid_name := λ h _, datum_name h;
  qpol_isid_context := λ h _, datum_context h;
  qpol_context_str := λ c _, render_context c;
|}.

Definition kernel_datum : isid_datum :=
  {| datum_name := "kernel";
     datum_context := {| ctx_user := "system_u"; ctx_role := "system_r";
                         ctx_type := "kernel_t"; ctx_range := Some "s0" |} |}.

Definition security_datum : isid_datum :=
  {| datum_name := "security";
     datum_context := {| ctx_user := "system_u"; ctx_role := "object_r";
                         ctx_type := "security_t"; ctx_range := None |} |}.

Definition devnull_datum : isid_datum :=
  {| datum_name := "devnull";
     datum_context := {| ctx_user := "system_u"; ctx_role := "object_r";
                         ctx_type := "null_device_t"; ctx_range := None |} |}.

(** The policy and two of its handles. *)
Definition policy : @qpol_policy_t qpol := [kernel_datum; security_datum].
Definition kernel : @qpol_isid_t qpol := kernel_datum.
Definition security : @qpol_isid_t qpol := security_datum.

(** A handle that belongs to some other policy. *)
Definition devnull : @qpol_isid_t qpol := devnull_datum.

(** The [InitialSID] for [kernel]. *)
Definition kernel_sid : @InitialSID qpol :=
  @Build_InitialSID qpol policy kernel.

(** The [InitialSID] wrapping the foreign handle. *)
Definition devnull_sid : @InitialSID qpol :=
  @Build_InitialSID qpol policy devnull.

End fixture.

End initsid.

(** ** [setoolsgui/apol/terulequery.py] *)

Module terulequery.

Global Instance str_bool : Str bool := λ b, if b then "True" else "False".

(** Records of the [logging] module: level and message. *)
Inductive LogLevel := DEBUG | INFO | ERROR.

Record LogRecord := {
  levelname : LogLevel;
  message : string;
}.

(** Modelled from the spec: the [Policy] object, which is not part of these
    sources.  It "exposes count and enumeration operations per element
    kind"; the tab reads the seven per-kind rule counts, and the query
    enumerates the TE rules in the policy's own order. *)
Record Policy (Rule : Type) := {
  allow_count : nat;
  auditallow_count : nat;
  neverallow_count : nat;
  dontaudit_count : nat;
  type_transition_count : nat;
  type_member_count : nat;
  type_change_count : nat;
  terules : list Rule;
}.
Arguments allow_count {Rule} _.
Arguments auditallow_count {Rule} _.
Arguments neverallow_count {Rule} _.
Arguments dontaudit_count {Rule} _.
Arguments type_transition_count {Rule} _.
Arguments type_member_count {Rule} _.
Arguments type_change_count {Rule} _.
Arguments terules {Rule} _.

(** *** [setools.TERuleQuery] *)

Module TERuleQuery.

(** The criteria that are entered as text. *)
Inductive field := Source | Target | Default.

Section query.
Context {Rule Matcher : Type}.

(** Modelled from the spec: the criteria of [setools.TERuleQuery], which is
    not part of these sources: "source (pattern, regex flag, indirect flag),
    target (same), ruletypes (collection), tclass (collection), perms
    (collection, equal flag), default (pattern, regex flag), boolean
    (collection, equal flag)".  A text criterion holds the matcher made
    from the accepted text, or [None] when unset. *)
Record t := {
  policy : Policy Rule;
  ruletype : list string;
  source : option Matcher;
  source_regex : bool;
  source_indirect : bool;
  target : option Matcher;
  target_regex : bool;
  target_indirect : bool;
  tclass : list string;
  perms : list string;
  perms_equal : bool;
  default : option Matcher;
  default_regex : bool;
  boolean : list string;
  boolean_equal : bool;
}.

Definition set_ruletype (v : list string) (x : t) : t :=
  {| policy := policy x; ruletype := v; source := source x;
     source_regex := source_regex x; source_indirect := source_indirect x;
     target := target x; target_regex := target_regex x;
     target_indirect := target_indirect x; tclass := tclass x;
     perms := perms x; perms_equal := perms_equal x; default := default x;
     default_regex := default_regex x; boolean := boolean x;
     boolean_equal := boolean_equal x |}.

Definition set_source (v : option Matcher) (x : t) : t :=
  {| policy := policy x; ruletype := ruletype x; source := v;
     source_regex := source_regex x; source_indirect := source_indirect x;
     target := target x; target_regex := target_regex x;
     target_indirect := target_indirect x; tclass := tclass x;
     perms := perms x; perms_equal := perms_equal x; default := default x;
     default_regex := default_regex x; boolean := boolean x;
     boolean_equal := boolean_equal x |}.

Definition set_source_regex (v : bool) (x : t) : t :=
  {| policy := policy x; ruletype := ruletype x; source := source x;
     source_regex := v; source_indirect := source_indirect x;
     target := target x; target_regex := target_regex x;
     target_indirect := target_indirect x; tclass := tclass x;
     perms := perms x; perms_equal := perms_equal x; default := default x;
     default_regex := default_regex x; boolean := boolean x;
     boolean_equal := boolean_equal x |}.

Definition set_source_indirect (v : bool) (x : t) : t :=
  {| policy := policy x; ruletype := ruletype x; source := source x;
     source_regex := source_regex x; source_indirect := v;
     target := target x; target_regex := target_regex x;
     target_indirect := target_indirect x; tclass := tclass x;
     perms := perms x; perms_equal := perms_equal x; default := default x;
     default_regex := default_regex x; boolean := boolean x;
     boolean_equal := boolean_equal x |}.

Definition set_target (v : option Matcher) (x : t) : t :=
  {| policy := policy x; ruletype := ruletype x; source := source x;
     source_regex := source_regex x; source_indirect := source_indirect x;
     target := v; target_regex := target_regex x;
     target_indirect := target_indirect x; tclass := tclass x;
     perms := perms x; perms_equal := perms_equal x; default := default x;
     default_regex := default_regex x; boolean := boolean x;
     boolean_equal := boolean_equal x |}.

Definition set_target_regex (v : bool) (x : t) : t :=
  {| policy := policy x; ruletype := ruletype x; source := source x;
     source_regex := source_regex x; source_indirect := source_indirect x;
     target := target x; target_regex := v;
     target_indirect := target_indirect x; tclass := tclass x;
     perms := perms x; perms_equal := perms_equal x; default := default x;
     default_regex := default_regex x; boolean := boolean x;
     boolean_equal := boolean_equal x |}.

Definition set_target_indirect (v : bool) (x : t) : t :=
  {| policy := policy x; ruletype := ruletype x; source := source x;
     source_regex := source_regex x; source_indirect := source_indirect x;
     target := target x; target_regex := target_regex x;
     target_indirect := v; tclass := tclass x; perms := perms x;
     perms_equal := perms_equal x; default := default x;
     default_regex := default_regex x; boolean := boolean x;
     boolean_equal := boolean_equal x |}.

Definition set_perms_equal (v : bool) (x : t) : t :=
  {| policy := policy x; ruletype := ruletype x; source := source x;
     source_regex := source_regex x; source_indirect := source_indirect x;
     target := target x; target_regex := target_regex x;
     target_indirect := target_indirect x; tclass := tclass x;
     perms := perms x; perms_equal := v; default := default x;
     default_regex := default_regex x; boolean := boolean x;
     boolean_equal := boolean_equal x |}.

Definition set_default (v : option Matcher) (x : t) : t :=
  {| policy := policy x; ruletype := ruletype x; source := source x;
     source_regex := source_regex x; source_indirect := source_indirect x;
     target := target x; target_regex := target_regex x;
     target_indirect := target_indirect x; tclass := tclass x;
     perms := perms x; perms_equal := perms_equal x; default := v;
     default_regex := default_regex x; boolean := boolean x;
     boolean_equal := boolean_equal x |}.

Definition set_default_regex (v : bool) (x : t) : t :=
  {| policy := policy x; ruletype := ruletype x; source := source x;
     source_regex := source_regex x; source_indirect := source_indirect x;
     target := target x; target_regex := target_regex x;
     target_indirect := target_indirect x; tclass := tclass x;
     perms := perms x; perms_equal := perms_equal x; default := default x;
     default_regex := v; boolean := boolean x;
     boolean_equal := boolean_equal x |}.

Definition set_boolean_equal (v : bool) (x : t) : t :=
  {| policy := policy x; ruletype := ruletype x; source := source x;
     source_regex := source_regex x; source_indirect := source_indirect x;
     target := target x; target_regex := target_regex x;
     target_indirect := target_indirect x; tclass := tclass x;
     perms := perms x; perms_equal := perms_equal x; default := default x;
     default_regex := default_regex x; boolean := boolean x;
     boolean_equal := v |}.

(** What the query makes of a text in the given mode ([true]: a regular
    expression, [false]: a literal name): a matcher, no criterion for an
    empty text, or the exception for a malformed one.  Compiling patterns
    and looking names up belong to [re] and to the policy. *)
Variable validate : field → bool → string → exn + option Matcher.

(** Modelled from the spec: the assignment [query.source = text] (and the
    same for [target] and [default]) of [setools.TERuleQuery].  "Setting an
    invalid regex fails with a pattern error; the previously-accepted value
    is preserved on failure (the matcher is not updated)". *)
Definition assign_source (text : string) : M t unit :=
  λ q, match validate Source (source_regex q) text with
       | inr m => (inr tt, set_source m q)
       | inl ex => (inl ex, q)
       end.

Definition assign_target (text : string) : M t unit :=
  λ q, match validate Target (target_regex q) text with
       | inr m => (inr tt, set_target m q)
       | inl ex => (inl ex, q)
       end.

Definition assign_default (text : string) : M t unit :=
  λ q, match validate Default (default_regex q) text with
       | inr m => (inr tt, set_default m q)
       | inl ex => (inl ex, q)
       end.

(** Whether a rule satisfies all the criteria of the query; the matching
    itself belongs to [setools.TERuleQuery]. *)
Variable matches : t → Rule → bool.

(** Modelled from the spec: the generator returned by [query.results()].
    "Streams the policy's rules"; "each element is yielded as soon as it is
    found to match -- the engine never materializes the full candidate set
    before producing output".  Its state is the query and the rules of the
    policy that have not been examined yet. *)
Record generator := {
  gen_query : t;
  pending : list Rule;
}.

Definition results (q : t) : generator :=
  {| gen_query := q; pending := terules (policy q) |}.

(** Examine pending rules up to the first that matches: that rule, if any,
    and the rules that remain to be examined. *)
Fixpoint scan (q : t) (rules : list Rule) : option Rule * list Rule :=
  match rules with
  | [] => (None, [])
  | r :: rest => if matches q r then (Some r, rest) else scan q rest
  end.

(** [next(g)]: the next matching rule, or [None] for [StopIteration], and
    the generator afterwards. *)
Definition next (g : generator) : option Rule * generator :=
  let '(item, rest) := scan (gen_query g) (pending g) in
  (item, {| gen_query := gen_query g; pending := rest |}).

(** All that the generator yields when run to its end. *)
Definition stream (g : generator) : list Rule :=
  List.filter (matches (gen_query g)) (pending g).

End query.

Arguments t : clear implicits.
Arguments generator : clear implicits.

End TERuleQuery.

(** *** Widgets *)

Inductive Palette := orig_palette | error_palette.

(** A [QLineEdit]: the text entered, the tool tip and the palette. *)
Record LineEdit := {
  text : string;
  toolTip : string;
  palette : Palette;
}.

Definition setToolTip (s : string) (w : LineEdit) : LineEdit :=
  {| text := text w; toolTip := s; palette := palette w |}.

Definition setPalette (p : Palette) (w : LineEdit) : LineEdit :=
  {| text := text w; toolTip := toolTip w; palette := p |}.

(** The busy [QProgressDialog]. *)
Record ProgressDialog := {
  labelText : string;
  visible : bool;
}.

(** *** [TERuleQueryTab] *)

Module Tab.

Section tab.
Context {Rule Matcher : Type}.
Variable validate :
  TERuleQuery.field → bool → string → exn + option Matcher.

(** The attributes of the tab that its slots read and write: the logger's
    records, the policy, the query, the widgets of [terulequery.ui] (a check
    box is its checked state), the questions asked in message boxes and
    whether the worker thread was started. *)
Record TERuleQueryTab := {
  log : list LogRecord;
  policy : Policy Rule;
  query : TERuleQuery.t Rule Matcher;
  source : LineEdit;
  source_regex : bool;
  source_indirect : bool;
  target : LineEdit;
  target_regex : bool;
  target_indirect : bool;
  default_type : LineEdit;
  default_regex : bool;
  perms_equal : bool;
  bools_equal : bool;
  allow : bool;
  auditallow : bool;
  neverallow : bool;
  dontaudit : bool;
  type_transition : bool;
  type_member : bool;
  type_change : bool;
  busy : ProgressDialog;
  raw_results : list string;
  questions : list string;
  thread_started : bool;
}.

Definition with_log (v : list LogRecord)
  (x : TERuleQueryTab) : TERuleQueryTab :=
  {| log := v; policy := policy x; query := query x; source := source x;
     source_regex := source_regex x; source_indirect := source_indirect x;
     target := target x; target_regex := target_regex x;
     target_indirect := target_indirect x; default_type := default_type x;
     default_regex := default_regex x; perms_equal := perms_equal x;
     bools_equal := bools_equal x; allow := allow x;
     auditallow := auditallow x; neverallow := neverallow x;
     dontaudit := dontaudit x; type_transition := type_transition x;
     type_member := type_member x; type_change := type_change x;
     busy := busy x; raw_results := raw_results x; questions := questions x;
     thread_started := thread_started x |}.

Definition with_query (v : TERuleQuery.t Rule Matcher)
  (x : TERuleQueryTab) : TERuleQueryTab :=
  {| log := log x; policy := policy x; query := v; source := source x;
     source_regex := source_regex x; source_indirect := source_indirect x;
     target := target x; target_regex := target_regex x;
     target_indirect := target_indirect x; default_type := default_type x;
     default_regex := default_regex x; perms_equal := perms_equal x;
     bools_equal := bools_equal x; allow := allow x;
     auditallow := auditallow x; neverallow := neverallow x;
     dontaudit := dontaudit x; type_transition := type_transition x;
     type_member := type_member x; type_change := type_change x;
     busy := busy x; raw_results := raw_results x; questions := questions x;
     thread_started := thread_started x |}.

Definition with_source (v : LineEdit) (x : TERuleQueryTab) : TERuleQueryTab :=
  {| log := log x; policy := policy x; query := query x; source := v;
     source_regex := source_regex x; source_indirect := source_indirect x;
     target := target x; target_regex := target_regex x;
     target_indirect := target_indirect x; default_type := default_type x;
     default_regex := default_regex x; perms_equal := perms_equal x;
     bools_equal := bools_equal x; allow := allow x;
     auditallow := auditallow x; neverallow := neverallow x;
     dontaudit := dontaudit x; type_transition := type_transition x;
     type_member := type_member x; type_change := type_change x;
     busy := busy x; raw_results := raw_results x; questions := questions x;
     thread_started := thread_started x |}.

Definition with_target (v : LineEdit) (x : TERuleQueryTab) : TERuleQueryTab :=
  {| log := log x; policy := policy x; query := query x; source := source x;
     source_regex := source_regex x; source_indirect := source_indirect x;
     target := v; target_regex := target_regex x;
     target_indirect := target_indirect x; default_type := default_type x;
     default_regex := default_regex x; perms_equal := perms_equal x;
     bools_equal := bools_equal x; allow := allow x;
     auditallow := auditallow x; neverallow := neverallow x;
     dontaudit := dontaudit x; type_transition := type_transition x;
     type_member := type_member x; type_change := type_change x;
     busy := busy x; raw_results := raw_results x; questions := questions x;
     thread_started := thread_started x |}.

Definition with_default_type (v : LineEdit)
  (x : TERuleQueryTab) : TERuleQueryTab :=
  {| log := log x; policy := policy x; query := query x; source := source x;
     source_regex := source_regex x; source_indirect := source_indirect x;
     target := target x; target_regex := target_regex x;
     target_indirect := target_indirect x; default_type := v;
     default_regex := default_regex x; perms_equal := perms_equal x;
     bools_equal := bools_equal x; allow := allow x;
     auditallow := auditallow x; neverallow := neverallow x;
     dontaudit := dontaudit x; type_transition := type_transition x;
     type_member := type_member x; type_change := type_change x;
     busy := busy x; raw_results := raw_results x; questions := questions x;
     thread_started := thread_started x |}.

Definition with_busy (v : ProgressDialog)
  (x : TERuleQueryTab) : TERuleQueryTab :=
  {| log := log x; policy := policy x; query := query x; source := source x;
     source_regex := source_regex x; source_indirect := source_indirect x;
     target := target x; target_regex := target_regex x;
     target_indirect := target_indirect x; default_type := default_type x;
     default_regex := default_regex x; perms_equal := perms_equal x;
     bools_equal := bools_equal x; allow := allow x;
     auditallow := auditallow x; neverallow := neverallow x;
     dontaudit := dontaudit x; type_transition := type_transition x;
     type_member := type_member x; type_change := type_change x; busy := v;
     raw_results := raw_results x; questions := questions x;
     thread_started := thread_started x |}.

Definition with_raw_results (v : list string)
  (x : TERuleQueryTab) : TERuleQueryTab :=
  {| log := log x; policy := policy x; query := query x; source := source x;
     source_regex := source_regex x; source_indirect := source_indirect x;
     target := target x; target_regex := target_regex x;
     target_indirect := target_indirect x; default_type := default_type x;
     default_regex := default_regex x; perms_equal := perms_equal x;
     bools_equal := bools_equal x; allow := allow x;
     auditallow := auditallow x; neverallow := neverallow x;
     dontaudit := dontaudit x; type_transition := type_transition x;
     type_member := type_member x; type_change := type_change x;
     busy := busy x; raw_results := v; questions := questions x;
     thread_started := thread_started x |}.

Definition with_questions (v : list string)
  (x : TERuleQueryTab) : TERuleQueryTab :=
  {| log := log x; policy := policy x; query := query x; source := source x;
     source_regex := source_regex x; source_indirect := source_indirect x;
     target := target x; target_regex := target_regex x;
     target_indirect := target_indirect x; default_type := default_type x;
     default_regex := default_regex x; perms_equal := perms_equal x;
     bools_equal := bools_equal x; allow := allow x;
     auditallow := auditallow x; neverallow := neverallow x;
     dontaudit := dontaudit x; type_transition := type_transition x;
     type_member := type_member x; type_change := type_change x;
     busy := busy x; raw_results := raw_results x; questions := v;
     thread_started := thread_started x |}.

Definition with_thread_started (v : bool)
  (x : TERuleQueryTab) : TERuleQueryTab :=
  {| log := log x; policy := policy x; query := query x; source := source x;
     source_regex := source_regex x; source_indirect := source_indirect x;
     target := target x; target_regex := target_regex x;
     target_indirect := target_indirect x; default_type := default_type x;
     default_regex := default_regex x; perms_equal := perms_equal x;
     bools_equal := bools_equal x; allow := allow x;
     auditallow := auditallow x; neverallow := neverallow x;
     dontaudit := dontaudit x; type_transition := type_transition x;
     type_member := type_member x; type_change := type_change x;
     busy := busy x; raw_results := raw_results x; questions := questions x;
     thread_started := v |}.

(** Run a computation on [self.query]. *)
Definition on_query {A} (m : M (TERuleQuery.t Rule Matcher) A)
  : M TERuleQueryTab A :=
  λ self, let '(r, q) := m (query self) in (r, with_query q self).

Definition log_record (l : LogLevel) (tpl : string) (args : list string)
  : M TERuleQueryTab unit :=
  msg ← lift_result (format tpl args) ;
  modify (λ self,
    with_log (log self ++ [{| levelname := l; message := msg |}]) self).

(** **** Ruletype criteria *)

Definition _set_ruletypes (value : bool) : M TERuleQueryTab unit :=
  modify (λ x,
  {| log := log x; policy := policy x; query := query x; source := source x;
     source_regex := source_regex x; source_indirect := source_indirect x;
     target := target x; target_regex := target_regex x;
     target_indirect := target_indirect x; default_type := default_type x;
     default_regex := default_regex x; perms_equal := perms_equal x;
     bools_equal := bools_equal x; allow := value; auditallow := value;
     neverallow := value; dontaudit := value; type_transition := value;
     type_member := value; type_change := value; busy := busy x;
     raw_results := raw_results x; questions := questions x;
     thread_started := thread_started x |}).

Definition set_all_ruletypes : M TERuleQueryTab unit := _set_ruletypes true.

Definition clear_all_ruletypes : M TERuleQueryTab unit := _set_ruletypes false.

(** **** Source criteria *)

Definition clear_source_error : M TERuleQueryTab unit :=
  modify (λ self, with_source
    (setToolTip "Match the source type/attribute of the rule." (source self))
    self) ;;
  modify (λ self, with_source (setPalette orig_palette (source self)) self).

Definition set_source : M TERuleQueryTab unit :=
  try_except_Exception
    (txt ← gets (λ self, text (source self)) ;
     on_query (TERuleQuery.assign_source validate txt))
    (λ ex,
       log_record ERROR "Source type/attribute error: {0}" [str ex] ;;
       modify (λ self, with_source
         (setToolTip ("Error: " +:+ str ex) (source self)) self) ;;
       modify (λ self, with_source
         (setPalette error_palette (source self)) self)).

Definition set_source_regex (state : bool) : M TERuleQueryTab unit :=
  log_record DEBUG "Setting source_regex {0}" [str state] ;;
  on_query (modify (TERuleQuery.set_source_regex state)) ;;
  clear_source_error ;;
  set_source.

(** **** Target criteria *)

Definition clear_target_error : M TERuleQueryTab unit :=
  modify (λ self, with_target
    (setToolTip "Match the target type/attribute of the rule." (target self))
    self) ;;
  modify (λ self, with_target (setPalette orig_palette (target self)) self).

Definition set_target : M TERuleQueryTab unit :=
  try_except_Exception
    (txt ← gets (λ self, text (target self)) ;
     on_query (TERuleQuery.assign_target validate txt))
    (λ ex,
       log_record ERROR "Target type/attribute error: {0}" [str ex] ;;
       modify (λ self, with_target
         (setToolTip ("Error: " +:+ str ex) (target self)) self) ;;
       modify (λ self, with_target
         (setPalette error_palette (target self)) self)).

Definition set_target_regex (state : bool) : M TERuleQueryTab unit :=
  log_record DEBUG "Setting target_regex {0}" [str state] ;;
  on_query (modify (TERuleQuery.set_target_regex state)) ;;
  clear_target_error ;;
  set_target.

(** **** Default criteria *)

Definition clear_default_error : M TERuleQueryTab unit :=
  modify (λ self, with_default_type
    (setToolTip "Match the default type the rule." (default_type self))
    self) ;;
  modify (λ self, with_default_type
    (setPalette orig_palette (default_type self)) self).

Definition set_default_type : M TERuleQueryTab unit :=
  checked ← gets default_regex ;
  on_query (modify (TERuleQuery.set_default_regex checked)) ;;
  try_except_Exception
    (txt ← gets (λ self, text (default_type self)) ;
     on_query (TERuleQuery.assign_default validate txt))
    (λ ex,
       log_record ERROR "Default type error: {0}" [str ex] ;;
       modify (λ self, with_default_type
         (setToolTip ("Error: " +:+ str ex) (default_type self)) self) ;;
       modify (λ self, with_default_type
         (setPalette error_palette (default_type self)) self)).

Definition set_default_regex (state : bool) : M TERuleQueryTab unit :=
  log_record DEBUG "Setting default_regex {0}" [str state] ;;
  on_query (modify (TERuleQuery.set_default_regex state)) ;;
  clear_default_error ;;
  set_default_type.

(** **** The three text criteria, uniformly

    [slot f] is the slot that assigns criterion [f] from its line edit,
    [regex_slot f] the slot of its regex check box. *)

Definition slot (f : TERuleQuery.field) : M TERuleQueryTab unit :=
  match f with
  | TERuleQuery.Source => set_source
  | TERuleQuery.Target => set_target
  | TERuleQuery.Default => set_default_type
  end.

Definition regex_slot (f : TERuleQuery.field) (state : bool)
  : M TERuleQueryTab unit :=
  match f with
  | TERuleQuery.Source => set_source_regex state
  | TERuleQuery.Target => set_target_regex state
  | TERuleQuery.Default => set_default_regex state
  end.

Definition widget (f : TERuleQuery.field) (self : TERuleQueryTab) : LineEdit :=
  match f with
  | TERuleQuery.Source => source self
  | TERuleQuery.Target => target self
  | TERuleQuery.Default => default_type self
  end.

Definition regex_box (f : TERuleQuery.field) (self : TERuleQueryTab) : bool :=
  match f with
  | TERuleQuery.Source => source_regex self
  | TERuleQuery.Target => target_regex self
  | TERuleQuery.Default => default_regex self
  end.

Definition criterion (f : TERuleQuery.field) (q : TERuleQuery.t Rule Matcher)
  : option Matcher :=
  match f with
  | TERuleQuery.Source => TERuleQuery.source q
  | TERuleQuery.Target => TERuleQuery.target q
  | TERuleQuery.Default => TERuleQuery.default q
  end.

Definition regex_flag (f : TERuleQuery.field) (q : TERuleQuery.t Rule Matcher)
  : bool :=
  match f with
  | TERuleQuery.Source => TERuleQuery.source_regex q
  | TERuleQuery.Target => TERuleQuery.target_regex q
  | TERuleQuery.Default => TERuleQuery.default_regex q
  end.

(** The mode in which the slot of [f] has its text validated: the flag of
    the query, which [set_default_type] first assigns from the check box. *)
Definition slot_mode (f : TERuleQuery.field) (self : TERuleQueryTab) : bool :=
  match f with
  | TERuleQuery.Source => TERuleQuery.source_regex (query self)
  | TERuleQuery.Target => TERuleQuery.target_regex (query self)
  | TERuleQuery.Default => default_regex self
  end.

(** The query as the slot of [f] leaves it when the text is refused. *)
Definition query_kept (f : TERuleQuery.field) (self : TERuleQueryTab)
  : TERuleQuery.t Rule Matcher :=
  match f with
  | TERuleQuery.Default =>
      TERuleQuery.set_default_regex (default_regex self) (query self)
  | _ => query self
  end.

Definition error_prefix (f : TERuleQuery.field) : string :=
  match f with
  | TERuleQuery.Source => "Source type/attribute error: "
  | TERuleQuery.Target => "Target type/attribute error: "
  | TERuleQuery.Default => "Default type error: "
  end.

Definition plain_toolTip (f : TERuleQuery.field) : string :=
  match f with
  | TERuleQuery.Source => "Match the source type/attribute of the rule."
  | TERuleQuery.Target => "Match the target type/attribute of the rule."
  | TERuleQuery.Default => "Match the default type the rule."
  end.

Definition debug_message (f : TERuleQuery.field) (state : bool) : string :=
  match f with
  | TERuleQuery.Source => "Setting source_regex "
  | TERuleQuery.Target => "Setting target_regex "
  | TERuleQuery.Default => "Setting default_regex "
  end +:+ str state.

(** **** Results runner *)

(** One [if box.isChecked(): rule_types.append(kind); max_results += count]. *)
Definition add_ruletype (checked : bool) (kind : string) (count : nat)
  (acc : list string * nat) : list string * nat :=
  if checked then (acc.1 ++ [kind], acc.2 + count) else acc.

(** The values of [rule_types] and [max_results] after the seven tests
    that open [run]. *)
Definition checked_ruletypes (self : TERuleQueryTab) : list string * nat :=
  let acc := ([], 0) in
  let acc := add_ruletype (allow self) "allow"
                          (allow_count (policy self)) acc in
  let acc := add_ruletype (auditallow self) "auditallow"
                          (auditallow_count (policy self)) acc in
  let acc := add_ruletype (neverallow self) "neverallow"
                          (neverallow_count (policy self)) acc in
  let acc := add_ruletype (dontaudit self) "dontaudit"
                          (dontaudit_count (policy self)) acc in
  let acc := add_ruletype (type_transition self) "type_transition"
                          (type_transition_count (policy self)) acc in
  let acc := add_ruletype (type_member self) "type_member"
                          (type_member_count (policy self)) acc in
  let acc := add_ruletype (type_change self) "type_change"
                          (type_change_count (policy self)) acc in
  acc.

(** The seven rule type boxes in the order in which [run] tests them, each
    with its rule kind and the policy's count for that kind. *)
Definition ruletype_boxes (self : TERuleQueryTab)
  : list (bool * string * nat) :=
  [ (allow self, "allow", allow_count (policy self));
    (auditallow self, "auditallow", auditallow_count (policy self));
    (neverallow self, "neverallow", neverallow_count (policy self));
    (dontaudit self, "dontaudit", dontaudit_count (policy self));
    (type_transition self, "type_transition",
     type_transition_count (policy self));
    (type_member self, "type_member", type_member_count (policy self));
    (type_change self, "type_change", type_change_count (policy self)) ].

(** The test "if query is broad": no criterion but the rule types is set. *)
Definition is_broad (q : TERuleQuery.t Rule Matcher) : bool :=
  negb (bool_decide (is_Some (TERuleQuery.source q))) &&
  negb (bool_decide (is_Some (TERuleQuery.target q))) &&
  negb (bool_decide (TERuleQuery.tclass q ≠ [])) &&
  negb (bool_decide (TERuleQuery.perms q ≠ [])) &&
  negb (bool_decide (is_Some (TERuleQuery.default q))) &&
  negb (bool_decide (TERuleQuery.boolean q ≠ [])).

(** The part of [run] after the question: "start processing". *)
Definition start_processing : M TERuleQueryTab unit :=
  modify (λ self, with_busy
    {| labelText := "Processing query..."; visible := visible (busy self) |}
    self) ;;
  modify (λ self, with_busy
    {| labelText := labelText (busy self); visible := true |} self) ;;
  modify (with_raw_results []) ;;
  modify (with_thread_started true).

(** [run(self, button)]; [reply] is the user's answer should the message
    box be shown ([true] for Yes). *)
Definition run (reply : bool) : M TERuleQueryTab unit :=
  '(rule_types, max_results) ← gets checked_ruletypes ;
  on_query (modify (TERuleQuery.set_ruletype rule_types)) ;;
  v ← gets source_indirect ;
  on_query (modify (TERuleQuery.set_source_indirect v)) ;;
  v ← gets target_indirect ;
  on_query (modify (TERuleQuery.set_target_indirect v)) ;;
  v ← gets perms_equal ;
  on_query (modify (TERuleQuery.set_perms_equal v)) ;;
  v ← gets bools_equal ;
  on_query (modify (TERuleQuery.set_boolean_equal v)) ;;
  broad ← gets (λ self, is_broad (query self)) ;
  if broad : bool then
    msg ← lift_result (format
      "This is a broad query, estimated to return {0} results.  Continue?"
      [str max_results]) ;
    modify (λ self, with_questions (questions self ++ [msg]) self) ;;
    if reply then start_processing else mret tt
  else start_processing.

(** [clear_error f] is the slot that takes the error mark off the line
    edit of [f]; it is connected to [textEdited]. *)
Definition clear_error (f : TERuleQuery.field) : M TERuleQueryTab unit :=
  match f with
  | TERuleQuery.Source => clear_source_error
  | TERuleQuery.Target => clear_target_error
  | TERuleQuery.Default => clear_default_error
  end.

(** The tab with the line edit of [f] replaced. *)
Definition with_widget (f : TERuleQuery.field) (w : LineEdit)
  (self : TERuleQueryTab) : TERuleQueryTab :=
  match f with
  | TERuleQuery.Source => with_source w self
  | TERuleQuery.Target => with_target w self
  | TERuleQuery.Default => with_default_type w self
  end.

(** **** [setupUi], the criteria settings

    The three calls under "Ensure settings are consistent with the initial
    .ui state": each regex slot is called with the state of its box. *)
Definition setupUi_settings : M TERuleQueryTab unit :=
  state ← gets source_regex ;
  set_source_regex state ;;
  state ← gets target_regex ;
  set_target_regex state ;;
  state ← gets default_regex ;
  set_default_regex state.

End tab.

End Tab.

(** *** [ResultsUpdater] *)

Module Worker.

(** What [update] does to the outside, in order: the calls on the result
    model, the items drawn from the generator ([None] when it is exhausted),
    the signals, the answers of the interruption test and the yields. *)
Inductive event (Rule : Type) :=
| BeginResetModel
| Next (item : option Rule)
| RawLine (line : string)
| IsInterruptionRequested (answer : bool)
| YieldCurrentThread
| SetResultList (l : list Rule)
| EndResetModel
| Finished.
Arguments BeginResetModel {Rule}.
Arguments Next {Rule} item.
Arguments RawLine {Rule} line.
Arguments IsInterruptionRequested {Rule} answer.
Arguments YieldCurrentThread {Rule}.
Arguments SetResultList {Rule} l.
Arguments EndResetModel {Rule}.
Arguments Finished {Rule}.

Definition inspect {A} (a : A) : {b : A | a = b} := exist _ a eq_refl.

Section worker.
Context {Rule Matcher : Type} `{Str Rule}.
Variable matches : TERuleQuery.t Rule Matcher → Rule → bool.

(** The interruption flag belongs to the thread and is raised from the GUI
    thread: [requested k] is what the test numbered [k] (from 0) reads. *)
Variable requested : nat → bool.

Abbreviation event := (event Rule).

(** The worker: its logger's records, the query, the result list of the
    table model, the events so far and the number of interruption tests
    made so far. *)
Record ResultsUpdater := {
  log : list LogRecord;
  query : TERuleQuery.t Rule Matcher;
  resultlist : list Rule;
  trace : list event;
  checks : nat;
}.

Definition with_log (v : list LogRecord)
  (x : ResultsUpdater) : ResultsUpdater :=
  {| log := v; query := query x; resultlist := resultlist x;
     trace := trace x; checks := checks x |}.

Definition with_resultlist (v : list Rule)
  (x : ResultsUpdater) : ResultsUpdater :=
  {| log := log x; query := query x; resultlist := v; trace := trace x;
     checks := checks x |}.

Definition with_trace (v : list event)
  (x : ResultsUpdater) : ResultsUpdater :=
  {| log := log x; query := query x; resultlist := resultlist x; trace := v;
     checks := checks x |}.

Definition with_checks (v : nat) (x : ResultsUpdater) : ResultsUpdater :=
  {| log := log x; query := query x; resultlist := resultlist x;
     trace := trace x; checks := v |}.

Definition emit (e : event) : M ResultsUpdater unit :=
  modify (λ w, with_trace (trace w ++ [e]) w).

Definition isInterruptionRequested : M ResultsUpdater bool :=
  k ← gets checks ;
  modify (with_checks (S k)) ;;
  emit (IsInterruptionRequested (requested k)) ;;
  mret (requested k).

(** [enumerate(iterable, start)]: the iterator and the next index. *)
Record enumerate_state := {
  enum_iter : TERuleQuery.generator Rule Matcher;
  enum_index : nat;
}.

Definition enumerate (g : TERuleQuery.generator Rule Matcher) (start : nat)
  : enumerate_state :=
  {| enum_iter := g; enum_index := start |}.

Definition enumerate_next (e : enumerate_state)
  : option (nat * Rule) * enumerate_state :=
  match TERuleQuery.next matches (enum_iter e) with
  | (Some item, g) =>
      (Some (enum_index e, item),
       {| enum_iter := g; enum_index := S (enum_index e) |})
  | (None, g) => (None, {| enum_iter := g; enum_index := enum_index e |})
  end.

(** The [for counter, item in enumerate(...)] loop of [update], from the
    iterator state [e] with the current values of [counter] and [results];
    it returns their final values and the iterator as it is left. *)
Equations for_loop (e : enumerate_state) (counter : nat) (results : list Rule)
  : M ResultsUpdater (nat * list Rule * enumerate_state)
  by wf (length (TERuleQuery.pending (enum_iter e))) lt :=
for_loop e counter results with inspect (enumerate_next e) := {
  | exist _ (None, e') _ =>
      emit (Next None) ;;
      mret (counter, results, e')
  | exist _ (Some (counter', item), e') Hnext =>
      emit (Next (Some item)) ;;
      let results' := results ++ [item] in
      emit (RawLine (str item)) ;;
      stop ← isInterruptionRequested ;
      if stop : bool then mret (counter', results', e')
      else
        (if bool_decide (counter' `mod` 10 = 0)
         then emit YieldCurrentThread else mret tt) ;;
        for_loop e' counter' results' }.
Next Obligation.
  intros e n item e' Hnext. intros. clear - Hnext. revert Hnext.
  unfold enumerate_next, TERuleQuery.next.
  destruct e as [[q rules] i]; simpl.
  induction rules as [|r rest IH]; simpl; [done|].
  destruct (matches q r).
  - intros [= <- <- <-]. simpl. lia.
  - intros Hscan. specialize (IH Hscan). lia.
Qed.

Definition log_info (tpl : string) (args : list string)
  : M ResultsUpdater unit :=
  msg ← lift_result (format tpl args) ;
  modify (λ w,
    with_log (log w ++ [{| levelname := INFO; message := msg |}]) w).

(** [update(self)] *)
Definition update : M ResultsUpdater unit :=
  emit BeginResetModel ;;
  q ← gets query ;
  '(counter, results, _) ←
    for_loop (enumerate (TERuleQuery.results q) 1) 0 [] ;
  modify (with_resultlist results) ;;
  emit (SetResultList results) ;;
  emit EndResetModel ;;
  log_info "{0} type enforcement rule(s) found." [str counter] ;;
  emit Finished.

(** **** What the loop does, as functions of the stream

    [taken k items]: the items appended to [results] when the generator
    yields [items] and the next interruption test is number [k]. *)
Fixpoint taken (k : nat) (items : list Rule) : list Rule :=
  match items with
  | [] => []
  | x :: rest => x :: (if requested k then [] else taken (S k) rest)
  end.

(** [loop_events k n items]: the events of the loop when the generator
    yields [items], the next test is number [k] and the next index of
    [enumerate] is [n]. *)
Fixpoint loop_events (k n : nat) (items : list Rule) : list event :=
  match items with
  | [] => [Next None]
  | x :: rest =>
      Next (Some x) :: RawLine (str x) ::
      IsInterruptionRequested (requested k) ::
      (if requested k then []
       else (if bool_decide (n `mod` 10 = 0) then [YieldCurrentThread] else [])
            ++ loop_events (S k) (S n) rest)
  end.

(** [left_over q k rules]: the rules that the generator for [q] has not
    examined when the loop ends, having started with [rules] pending and
    test number [k] next. *)
Fixpoint left_over (q : TERuleQuery.t Rule Matcher) (k : nat)
  (rules : list Rule) : list Rule :=
  match rules with
  | [] => []
  | r :: rest =>
      if matches q r then
        if requested k then rest else left_over q (S k) rest
      else left_over q k rest
  end.

End worker.

(** The events that the loop itself produces. *)
Definition is_loop_event {Rule} (e : event Rule) : Prop :=
  match e with
  | Next _ | RawLine _ | IsInterruptionRequested _ | YieldCurrentThread => True
  | _ => False
  end.

(** The items drawn from the generator according to a list of events. *)
Definition drawn {Rule} (evs : list (event Rule)) : list Rule :=
  omap (λ e, match e with Next (Some x) => Some x | _ => None end) evs.

(** The lines sent with [raw_line], the answers of the interruption tests
    and the number of yields, according to a list of events. *)
Definition raw_lines {Rule} (evs : list (event Rule)) : list string :=
  omap (λ e, match e with RawLine s => Some s | _ => None end) evs.

Definition answers {Rule} (evs : list (event Rule)) : list bool :=
  omap (λ e, match e with IsInterruptionRequested b => Some b | _ => None end)
       evs.

Definition yields {Rule} (evs : list (event Rule)) : nat :=
  length (omap (λ e, match e with YieldCurrentThread => Some tt | _ => None end)
               evs).

End Worker.

(** *** [TERuleQueryTab.update_complete] *)

Module Display.

(** The calls that [update_complete] makes on the busy dialog, the result
    table and the raw results. *)
Inductive call :=
| SetLabelText (label : string)
| Repaint
| ResizeColumnsToContents
| ResizeSection (index size : nat)
| ResizeRowsToContents
| MoveCursorStart
| Reset.

Section display.

(** The width that [resizeColumnsToContents] gives to each column; it
    depends on the contents of the table. *)
Variable fitted : nat → nat.

(** [canceled k] is what [busy.wasCanceled()] answers the [k]-th time it is
    asked (from 0). *)
Variable canceled : nat → bool.

(** What [update_complete] reads and writes: the sizes of the sections of
    the horizontal header, the calls made so far and the number of times
    [wasCanceled] has been asked. *)
Record View := {
  sectionSize : nat → nat;
  calls : list call;
  asked : nat;
}.

Definition call_ (c : call) : M View unit :=
  modify (λ v, {| sectionSize := sectionSize v; calls := calls v ++ [c];
                  asked := asked v |}).

Definition wasCanceled : M View bool :=
  k ← gets asked ;
  modify (λ v, {| sectionSize := sectionSize v; calls := calls v;
                  asked := S k |}) ;;
  mret (canceled k).

Definition resizeColumnsToContents : M View unit :=
  call_ ResizeColumnsToContents ;;
  modify (λ v, {| sectionSize := fitted; calls := calls v;
                  asked := asked v |}).

Definition resizeSection (index size : nat) : M View unit :=
  call_ (ResizeSection index size) ;;
  modify (λ v, {| sectionSize := λ i, if bool_decide (i = index) then size
                                      else sectionSize v i;
                  calls := calls v; asked := asked v |}).

Definition update_complete : M View unit :=
  c ← wasCanceled ;
  (if c : bool then mret tt
   else
     call_ (SetLabelText
       "Resizing the result table's columns; GUI may be unresponsive") ;;
     call_ Repaint ;;
     resizeColumnsToContents ;;
     size ← gets (λ v, sectionSize v 4) ;
     if bool_decide (400 < size) then resizeSection 4 400 else mret tt) ;;
  c ← wasCanceled ;
  (if c : bool then mret tt
   else
     call_ (SetLabelText
       "Resizing the result table's rows; GUI may be unresponsive") ;;
     call_ Repaint ;;
     call_ ResizeRowsToContents) ;;
  c ← wasCanceled ;
  (if c : bool then mret tt
   else
     call_ (SetLabelText
       "Moving the raw result to top; GUI may be unresponsive") ;;
     call_ Repaint ;;
     call_ MoveCursorStart) ;;
  call_ Reset.

End display.

End Display.

(** *** [TERuleQueryTab.setupUi], the completion lists *)

Module Completion.

(** The order of Python on strings: code point by code point, which on
    the byte strings used here is byte by byte (the two agree on the ASCII
    names of a policy). *)
Definition string_le (a b : string) : Prop := String.leb a b = true.

Global Instance string_le_dec (a b : string) : Decision (string_le a b).
Proof. unfold string_le. apply _. Defined.

(** [sorted(l)] for a list of strings. *)
Definition sorted (l : list string) : list string := merge_sort string_le l.

Section completion.
Context {TypeSym AttrSym : Type} `{Str TypeSym} `{Str AttrSym}.

(** [policy.types()] and [policy.typeattributes()]. *)
Variable types : list TypeSym.
Variable typeattributes : list AttrSym.

(** The list given to the completer of the source and target line edits:
    the names of the types, extended with those of the attributes,
    sorted. *)
Definition typeattr_completion_list : list string :=
  sorted ((str <$> types) ++ (str <$> typeattributes)).

(** The list given to the completer of the default line edit. *)
Definition type_completion_list : list string :=
  sorted (str <$> types).

End completion.

End Completion.

(** *** A fixture

    The three [allow] rules of a small policy, literal and pattern matchers
    (a pattern is refused when its parentheses do not balance, and matches
    the names it is a prefix of), and a tab and a worker over them. *)

Module fixture.

Record rule := {
  rule_kind : string;
  rule_source : string;
  rule_target : string;
  rule_tclass : string;
  rule_perms : list string;
}.

Global Instance str_rule : Str rule := λ r,
  rule_kind r +:+ " " +:+ rule_source r +:+ " " +:+ rule_target r +:+ ":" +:+
  rule_tclass r +:+ " { " +:+
  foldr (λ p acc, p +:+ " " +:+ acc) "" (rule_perms r) +:+ "};".

Inductive matcher := Exact (name : string) | Pattern (re : string).

Fixpoint balanced (depth : nat) (s : string) : bool :=
  match s with
  | EmptyString => bool_decide (depth = 0)
  | String c rest =>
      if Ascii.eqb c "("%char then balanced (S depth) rest
      else if Ascii.eqb c ")"%char then
        match depth with
        | O => false
        | S d => balanced d rest
        end
      else balanced depth rest
  end.

Definition validate (_ : TERuleQuery.field) (regex : bool) (txt : string)
  : exn + option matcher :=
  if String.eqb txt "" then inr None
  else if regex then
    if balanced 0 txt then inr (Some (Pattern txt))
    else inl (OtherError "missing ), unterminated subpattern")
  else inr (Some (Exact txt)).

Definition match_name (m : option matcher) (name : string) : bool :=
  match m with
  | None => true
  | Some (Exact n) => String.eqb n name
  | Some (Pattern re) => String.prefix re name
  end.

Definition matches (q : TERuleQuery.t rule matcher) (r : rule) : bool :=
  (bool_decide (TERuleQuery.ruletype q = []) ||
   existsb (String.eqb (rule_kind r)) (TERuleQuery.ruletype q)) &&
  match_name (TERuleQuery.source q) (rule_source r) &&
  match_name (TERuleQuery.target q) (rule_target r).

Definition rule1 : rule :=
  {| rule_kind := "allow"; rule_source := "httpd_t";
     rule_target := "var_log_t"; rule_tclass := "file";
     rule_perms := ["read"; "write"] |}.

Definition rule2 : rule :=
  {| rule_kind := "allow"; rule_source := "httpd_t";
     rule_target := "etc_t"; rule_tclass := "file";
     rule_perms := ["read"] |}.

Definition rule3 : rule :=
  {| rule_kind := "allow"; rule_source := "sshd_t";
     rule_target := "var_log_t"; rule_tclass := "file";
     rule_perms := ["read"] |}.

Definition policy : Policy rule :=
  {| allow_count := 3; auditallow_count := 0; neverallow_count := 0;
     dontaudit_count := 2; type_transition_count := 5;
     type_member_count := 0; type_change_count := 1;
     terules := [rule1; rule2; rule3] |}.

(** [TERuleQuery(policy)]: nothing set. *)
Definition query : TERuleQuery.t rule matcher :=
  {| TERuleQuery.policy := policy; TERuleQuery.ruletype := [];
     TERuleQuery.source := None; TERuleQuery.source_regex := false;
     TERuleQuery.source_indirect := false;
     TERuleQuery.target := None; TERuleQuery.target_regex := false;
     TERuleQuery.target_indirect := false;
     TERuleQuery.tclass := []; TERuleQuery.perms := [];
     TERuleQuery.perms_equal := false;
     TERuleQuery.default := None; TERuleQuery.default_regex := false;
     TERuleQuery.boolean := []; TERuleQuery.boolean_equal := false |}.

(** The query for the rules whose source is [httpd_t]. *)
Definition httpd_query : TERuleQuery.t rule matcher :=
  TERuleQuery.set_source (Some (Exact "httpd_t"))
    (TERuleQuery.set_ruletype ["allow"] query).

(** A query that no rule of the policy matches. *)
Definition nobody_query : TERuleQuery.t rule matcher :=
  TERuleQuery.set_source (Some (Exact "nobody_t")) query.

(** A policy with twenty-five rules, and the query for all of them. *)
Definition long_policy : Policy rule :=
  {| allow_count := 25; auditallow_count := 0; neverallow_count := 0;
     dontaudit_count := 0; type_transition_count := 0;
     type_member_count := 0; type_change_count := 0;
     terules := replicate 24 rule1 ++ [rule3] |}.

Definition long_query : TERuleQuery.t rule matcher :=
  {| TERuleQuery.policy := long_policy; TERuleQuery.ruletype := [];
     TERuleQuery.source := None; TERuleQuery.source_regex := false;
     TERuleQuery.source_indirect := false;
     TERuleQuery.target := None; TERuleQuery.target_regex := false;
     TERuleQuery.target_indirect := false;
     TERuleQuery.tclass := []; TERuleQuery.perms := [];
     TERuleQuery.perms_equal := false;
     TERuleQuery.default := None; TERuleQuery.default_regex := false;
     TERuleQuery.boolean := []; TERuleQuery.boolean_equal := false |}.

(** A result table whose columns are 100 wide, before contents that need
    120 for each column number. *)
Definition view : Display.View :=
  {| Display.sectionSize := λ _, 100; Display.calls := [];
     Display.asked := 0 |}.

Definition fitted (i : nat) : nat := 120 * i.

Definition line_edit (txt : string) : LineEdit :=
  {| text := txt; toolTip := ""; palette := orig_palette |}.

(** A tab whose three line edits hold [src], [tgt] and [dflt] and whose
    three regex boxes show [regex], with the [allow], [dontaudit] and
    [type_change] boxes checked. *)
Definition tab (src tgt dflt : string) (regex : bool)
  : Tab.TERuleQueryTab (Rule := rule) (Matcher := matcher) :=
  {| Tab.log := []; Tab.policy := policy; Tab.query := query;
     Tab.source := line_edit src; Tab.source_regex := regex;
     Tab.source_indirect := true;
     Tab.target := line_edit tgt; Tab.target_regex := regex;
     Tab.target_indirect := true;
     Tab.default_type := line_edit dflt; Tab.default_regex := regex;
     Tab.perms_equal := false; Tab.bools_equal := false;
     Tab.allow := true; Tab.auditallow := false; Tab.neverallow := false;
     Tab.dontaudit := true; Tab.type_transition := false;
     Tab.type_member := false; Tab.type_change := true;
     Tab.busy := {| labelText := ""; visible := false |};
     Tab.raw_results := []; Tab.questions := [];
     Tab.thread_started := false |}.

Definition worker (q : TERuleQuery.t rule matcher)
  : Worker.ResultsUpdater (Rule := rule) (Matcher := matcher) :=
  {| Worker.log := []; Worker.query := q; Worker.resultlist := [];
     Worker.trace := []; Worker.checks := 0 |}.

End fixture.

End terulequery.

(** * Properties *)

Example format_two_fields :
  format "sid {0} {1}" ["kernel"; "system_u:system_r:kernel_t"]
  = inr "sid kernel system_u:system_r:kernel_t".
Proof. reflexivity. Qed.

Example format_missing_argument :
  format "sid {0} {1}" ["kernel"] = inl (IndexError "tuple index out of range").
Proof. reflexivity. Qed.


(** ** [str.format] *)

Module Py_facts.

Lemma append_cons c (s t : string) : String c s +:+ t = String c (s +:+ t).
Proof. reflexivity. Qed.

Lemma append_empty_r (s : string) : s +:+ "" = s.
Proof.
  induction s as [|c s IH]; [done|].
  rewrite append_cons. by rewrite IH.
Qed.

(** A brace-free prefix of the template is copied to the output. *)
Lemma format_from_plain p rest args :
  brace_free p = true →
  format_from None (p +:+ rest) args
  = match format_from None rest args with
    | inr s => inr (p +:+ s)
    | inl e => inl e
    end.
Proof.
  induction p as [|c p IH]; intros Hp.
  - change ("" +:+ rest) with rest. by destruct (format_from None rest args).
  - simpl in Hp. apply andb_true_iff in Hp as [Hc Hp].
    apply andb_true_iff in Hc as [Ho Hc].
    apply negb_true_iff in Ho, Hc.
    rewrite append_cons. simpl. rewrite Ho, Hc, (IH Hp).
    by destruct (format_from None rest args).
Qed.

(** A template with the one field [{0}] between two brace-free texts. *)
Lemma format_one_field p q a :
  brace_free p = true → brace_free q = true →
  format (p +:+ "{0}" +:+ q) [a] = inr (p +:+ a +:+ q).
Proof.
  intros Hp Hq. unfold format. rewrite (format_from_plain p _ _ Hp).
  change ("{0}" +:+ q) with (String "{" (String "0" (String "}" q))).
  simpl.
  pose proof (format_from_plain q "" [a] Hq) as Hq'.
  rewrite append_empty_r in Hq'. rewrite Hq'. simpl.
  by rewrite append_empty_r.
Qed.

Lemma format_one_field_last p a :
  brace_free p = true → format (p +:+ "{0}") [a] = inr (p +:+ a).
Proof.
  intros Hp. rewrite <- (append_empty_r a) at 2.
  by apply (format_one_field p "" a).
Qed.

End Py_facts.

Import Py_facts.

(** ** Initial SIDs *)

Module initsid_facts.
Import initsid.

Section policyrep.
Context `{Qpol}.

(** *** Equations of the factory *)

Ltac unfold_M :=
  cbv [initialsid_factory try_except_ValueError qpol_isid_t_call str_ctor_arg
       mbind M_bind bind mret M_ret ret raise get lift_result].

Lemma format_not_valid (s : string) :
  format "{0} is not a valid initial sid" [s]
  = inr (s +:+ " is not a valid initial sid").
Proof. by apply (format_one_field "" " is not a valid initial sid"). Qed.

Lemma new_InitialSID_fresh p h σ :
  ∃ r, σ !! r = None ∧
       new_InitialSID p h σ
       = (inr r, <[r := {| policy := p; qpol_symbol := h |}]> σ).
Proof.
  exists (fresh (dom σ)). split; [|done].
  apply not_elem_of_dom, is_fresh.
Qed.

Lemma factory_isid p h σ :
  initialsid_factory p (PyIsid h) σ = new_InitialSID p h σ.
Proof. reflexivity. Qed.

Lemma factory_found p a h σ :
  qpol_isid_t_new p a = Found h →
  initialsid_factory p (PyOther a) σ = new_InitialSID p h σ.
Proof.
  intros Hnew. unfold_M. by rewrite Hnew.
Qed.

Lemma factory_type_error p a m σ :
  qpol_isid_t_new p a = RaisesTypeError m →
  initialsid_factory p (PyOther a) σ = (inl (TypeError m), σ).
Proof.
  intros Hnew. unfold_M. by rewrite Hnew.
Qed.

Lemma factory_value_error_name p n m σ :
  qpol_isid_t_new p (ByName n) = RaisesValueError m →
  initialsid_factory p (PyOther (ByName n)) σ
  = (inl (InvalidInitialSid (n +:+ " is not a valid initial sid")), σ).
Proof.
  intros Hnew. unfold_M. by rewrite Hnew.
Qed.

Lemma factory_value_error_object p r o m σ :
  qpol_isid_t_new p (ByObject r) = RaisesValueError m →
  σ !! r = Some o →
  initialsid_factory p (PyOther (ByObject r)) σ
  = (inl (InvalidInitialSid (str o +:+ " is not a valid initial sid")), σ).
Proof.
  intros Hnew Hr. unfold_M. by rewrite Hnew, Hr.
Qed.

Lemma factory_fresh_object p symbol h σ :
  match symbol with
  | PyIsid h' => h' = h
  | PyOther a => qpol_isid_t_new p a = Found h
  end →
  ∃ r, σ !! r = None ∧
       initialsid_factory p symbol σ
       = (inr r, <[r := {| policy := p; qpol_symbol := h |}]> σ).
Proof.
  destruct symbol as [h'|a]; intros Hres.
  - subst h'. rewrite factory_isid. apply new_InitialSID_fresh.
  - rewrite (factory_found _ _ _ _ Hres). apply new_InitialSID_fresh.
Qed.

(** **** Resolution by name *)

(** C1 (as amended): a name that the policy does not know makes the factory
    raise [InvalidInitialSid] with the message "<name> is not a valid
    initial sid" and leaves the store as it was, so no [InitialSID] object is
    built; a name that resolves gives a new [InitialSID] holding this policy
    and the handle found; a [TypeError] of the lookup passes through.  A
    [qpol_isid_t] handle is wrapped as it is, whatever policy it is from. *)
Theorem initialsid_factory_resolution p σ :
  (∀ n,
     match qpol_isid_t_new p (ByName n) with
     | Found h =>
         ∃ r, σ !! r = None ∧
              initialsid_factory p (PyOther (ByName n)) σ
              = (inr r, <[r := {| policy := p; qpol_symbol := h |}]> σ)
     | RaisesValueError _ =>
         initialsid_factory p (PyOther (ByName n)) σ
         = (inl (InvalidInitialSid (n +:+ " is not a valid initial sid")), σ)
     | RaisesTypeError m =>
         initialsid_factory p (PyOther (ByName n)) σ = (inl (TypeError m), σ)
     end)
  ∧ (∀ h,
       ∃ r, σ !! r = None ∧
            initialsid_factory p (PyIsid h) σ
            = (inr r, <[r := {| policy := p; qpol_symbol := h |}]> σ)).
Proof.
  split.
  - intros n. destruct (qpol_isid_t_new p (ByName n)) as [h|m|m] eqn:Hnew.
    + by apply (factory_fresh_object p (PyOther (ByName n)) h).
    + by apply factory_value_error_name with m.
    + by apply factory_type_error.
  - intros h. by apply (factory_fresh_object p (PyIsid h) h).
Qed.

(** **** Identity of the objects returned *)

(** C4 (as amended): every request that resolves to the raw handle [h]
    builds a new [InitialSID]: two requests in a row return two distinct
    objects, neither of which existed before its request, and both hold the
    same policy and the same raw handle. *)
Theorem initialsid_factory_builds_each_time p symbol h σ :
  match symbol with
  | PyIsid h' => h' = h
  | PyOther a => qpol_isid_t_new p a = Found h
  end →
  ∃ r1 r2 σ1 σ2,
    initialsid_factory p symbol σ = (inr r1, σ1) ∧
    initialsid_factory p symbol σ1 = (inr r2, σ2) ∧
    r1 ≠ r2 ∧ σ !! r1 = None ∧ σ1 !! r2 = None ∧
    σ2 !! r1 = Some {| policy := p; qpol_symbol := h |} ∧
    σ2 !! r2 = Some {| policy := p; qpol_symbol := h |}.
Proof.
  intros Hres.
  destruct (factory_fresh_object p symbol h σ Hres) as (r1 & Hr1 & E1).
  set (o := {| policy := p; qpol_symbol := h |}) in *.
  destruct (factory_fresh_object p symbol h (<[r1 := o]> σ) Hres)
    as (r2 & Hr2 & E2).
  exists r1, r2, (<[r1 := o]> σ), (<[r2 := o]> (<[r1 := o]> σ)).
  assert (r1 ≠ r2) as Hne.
  { intros ->. by rewrite lookup_insert_eq in Hr2. }
  repeat split; try done.
  - rewrite lookup_insert_ne by done. by rewrite lookup_insert_eq.
  - by rewrite lookup_insert_eq.
Qed.

(** **** Dispatch on the argument *)

(** C5 (as amended): the factory distinguishes two kinds of argument.  A
    raw [qpol_isid_t] handle is wrapped in a new [InitialSID] without any
    lookup.  Anything else is handed to the raw constructor: a handle found
    is wrapped in a new [InitialSID], and the factory raises
    [InvalidInitialSid] exactly when the constructor raised [ValueError],
    while a [TypeError] of the constructor passes through.  An [InitialSID]
    object given as argument is never what is returned. *)
Theorem initialsid_factory_dispatch p symbol σ :
  arg_alive symbol σ →
  match symbol with
  | PyIsid h => initialsid_factory p symbol σ = new_InitialSID p h σ
  | PyOther a =>
      (∀ h, qpol_isid_t_new p a = Found h →
            initialsid_factory p symbol σ = new_InitialSID p h σ) ∧
      ((∃ m, qpol_isid_t_new p a = RaisesValueError m) ↔
       (∃ msg, initialsid_factory p symbol σ
               = (inl (InvalidInitialSid msg), σ))) ∧
      (∀ m, qpol_isid_t_new p a = RaisesTypeError m →
            initialsid_factory p symbol σ = (inl (TypeError m), σ)) ∧
      (∀ r, a = ByObject r → (initialsid_factory p symbol σ).1 ≠ inr r)
  end.
Proof.
  destruct symbol as [h|a]; [done|]. intros Halive.
  split; [intros h Hh; by apply factory_found|]. split; [split|split].
  - intros [m Hm]. destruct a as [n|r].
    + eexists. by apply factory_value_error_name with m.
    + destruct Halive as [o Ho]. eexists.
      by apply factory_value_error_object with m.
  - intros [msg Hmsg].
    destruct (qpol_isid_t_new p a) as [h|m|m] eqn:Hnew; [| by eexists |].
    + destruct (factory_fresh_object p (PyOther a) h σ Hnew) as (r & _ & E).
      congruence.
    + rewrite (factory_type_error _ _ _ _ Hnew) in Hmsg. congruence.
  - intros m Hm. by apply factory_type_error.
  - intros r ->. destruct Halive as [o Ho].
    destruct (qpol_isid_t_new p (ByObject r)) as [h|m|m] eqn:Hnew.
    + destruct (factory_fresh_object p (PyOther (ByObject r)) h σ Hnew)
        as (r' & Hr' & E).
      rewrite E. simpl. intros [= ->]. congruence.
    + by rewrite (factory_value_error_object _ _ _ _ _ Hnew Ho).
    + by rewrite (factory_type_error _ _ _ _ Hnew).
Qed.

(** **** The statement of an initial SID *)

(** C7: an initial SID has one context, the wrapper of the raw context
    that its handle has in its policy, and [statement()] is the text
    "sid ", the SID's own rendering, a space, and the rendering of that
    context. *)
Theorem statement_canonical (self : InitialSID) :
  context self
  = context_factory (policy self)
      (qpol_isid_context (qpol_symbol self) (policy self))
  ∧ statement self = inr ("sid " +:+ str self +:+ " " +:+ str (context self)).
Proof.
  split; [done|].
  unfold statement, format. simpl.
  by rewrite append_empty_r.
Qed.

End policyrep.

End initsid_facts.

Module terulequery_facts.
Import terulequery.

(** *** The slots of the tab *)

Section tab.
Import Tab.
Context {Rule Matcher : Type}.
Variable validate :
  TERuleQuery.field → bool → string → exn + option Matcher.

Abbreviation TERuleQueryTab :=
  (TERuleQueryTab (Rule := Rule) (Matcher := Matcher)).
Abbreviation slot := (slot validate).
Abbreviation regex_slot := (regex_slot validate).

Opaque format.

Ltac unfold_T :=
  cbv [slot Tab.slot set_source set_target set_default_type
       regex_slot Tab.regex_slot
       set_source_regex set_target_regex set_default_regex
       clear_source_error clear_target_error clear_default_error
       TERuleQuery.assign_source TERuleQuery.assign_target
       TERuleQuery.assign_default
       on_query log_record try_except_Exception
       mbind M_bind bind mret M_ret ret raise get gets modify lift_result].

Lemma format_error_prefix f (s : string) :
  match f with
  | TERuleQuery.Source => format "Source type/attribute error: {0}" [s]
  | TERuleQuery.Target => format "Target type/attribute error: {0}" [s]
  | TERuleQuery.Default => format "Default type error: {0}" [s]
  end = inr (error_prefix f +:+ s).
Proof.
  destruct f.
  - by apply (format_one_field_last "Source type/attribute error: ").
  - by apply (format_one_field_last "Target type/attribute error: ").
  - by apply (format_one_field_last "Default type error: ").
Qed.

Lemma format_debug f (state : bool) :
  match f with
  | TERuleQuery.Source => format "Setting source_regex {0}" [str state]
  | TERuleQuery.Target => format "Setting target_regex {0}" [str state]
  | TERuleQuery.Default => format "Setting default_regex {0}" [str state]
  end = inr (debug_message f state).
Proof.
  destruct f.
  - by apply (format_one_field_last "Setting source_regex ").
  - by apply (format_one_field_last "Setting target_regex ").
  - by apply (format_one_field_last "Setting default_regex ").
Qed.

(** What a slot does, by the outcome of the validation. *)
Lemma slot_refused f (self : TERuleQueryTab) ex :
  validate f (slot_mode f self) (text (widget f self)) = inl ex →
  ∃ self',
    slot f self = (inr tt, self') ∧
    query self' = query_kept f self ∧
    log self' = log self ++ [{| levelname := ERROR;
                                message := error_prefix f +:+ str ex |}] ∧
    widget f self' = {| text := text (widget f self);
                        toolTip := "Error: " +:+ str ex;
                        palette := error_palette |}.
Proof.
  intros Hv. pose proof (format_error_prefix f (str ex)) as Hfmt.
  destruct f; simpl in Hv, Hfmt; unfold_T; simpl; rewrite Hv; simpl;
    rewrite Hfmt; simpl; by eexists.
Qed.

Lemma slot_accepted f (self : TERuleQueryTab) m :
  validate f (slot_mode f self) (text (widget f self)) = inr m →
  ∃ self',
    slot f self = (inr tt, self') ∧
    criterion f (query self') = m ∧
    regex_flag f (query self') = slot_mode f self ∧
    log self' = log self ∧
    widget f self' = widget f self.
Proof.
  intros Hv.
  destruct f; simpl in Hv; unfold_T; simpl; rewrite Hv; simpl; by eexists.
Qed.

(** C3: when the text of a criterion is refused by the query (an
    unparsable pattern, say), its slot returns normally having logged the
    error under the heading of that criterion and marked the line edit;
    the criterion of the query, like the other two, is what it was, and
    the query as a whole is unchanged but for the [default_regex] flag
    that [set_default_type] assigns before the text. *)
Theorem malformed_criterion_keeps_query f (self : TERuleQueryTab) ex :
  validate f (slot_mode f self) (text (widget f self)) = inl ex →
  ∃ self',
    slot f self = (inr tt, self') ∧
    query self' = query_kept f self ∧
    TERuleQuery.source (query self') = TERuleQuery.source (query self) ∧
    TERuleQuery.target (query self') = TERuleQuery.target (query self) ∧
    TERuleQuery.default (query self') = TERuleQuery.default (query self) ∧
    log self' = log self ++ [{| levelname := ERROR;
                                message := error_prefix f +:+ str ex |}] ∧
    widget f self' = {| text := text (widget f self);
                        toolTip := "Error: " +:+ str ex;
                        palette := error_palette |}.
Proof.
  intros Hv. destruct (slot_refused f self ex Hv) as (self' & E & Hq & Hl & Hw).
  exists self'. rewrite Hq. by destruct f.
Qed.

(** C9: when a regex box is toggled to [state], its slot logs the new
    state, assigns it to the flag of the query and assigns the text of the
    line edit again, the text itself being left alone: the text is
    validated in the new mode.  If it is accepted the criterion is the new
    matcher and the line edit shows no error; if it is refused -- as a
    text accepted as a literal can be once regex mode is on -- the
    criterion is kept and the error is logged and shown. *)
Theorem regex_toggle_revalidates f state (self : TERuleQueryTab) :
  regex_box f self = state →
  ∃ self',
    regex_slot f state self = (inr tt, self') ∧
    regex_flag f (query self') = state ∧
    text (widget f self') = text (widget f self) ∧
    match validate f state (text (widget f self)) with
    | inr m =>
        criterion f (query self') = m ∧
        log self' = log self ++ [{| levelname := DEBUG;
                                    message := debug_message f state |}] ∧
        toolTip (widget f self') = plain_toolTip f ∧
        palette (widget f self') = orig_palette
    | inl ex =>
        criterion f (query self') = criterion f (query self) ∧
        log self' = log self ++
          [{| levelname := DEBUG; message := debug_message f state |};
           {| levelname := ERROR; message := error_prefix f +:+ str ex |}] ∧
        toolTip (widget f self') = "Error: " +:+ str ex ∧
        palette (widget f self') = error_palette
    end.
Proof.
  intros Hbox.
  pose proof (format_debug f state) as Hdbg.
  destruct (validate f state (text (widget f self))) as [ex|m] eqn:Hv.
  - pose proof (format_error_prefix f (str ex)) as Hfmt.
    destruct f; simpl in Hbox, Hv, Hdbg, Hfmt; unfold_T;
      rewrite Hdbg; simpl; rewrite ?Hbox, Hv; simpl;
      rewrite Hfmt; simpl; rewrite <- ?app_assoc; by eexists.
  - destruct f; simpl in Hbox, Hv, Hdbg; unfold_T;
      rewrite Hdbg; simpl; rewrite ?Hbox, Hv; simpl; by eexists.
Qed.

(** **** [run] *)

Lemma checked_ruletypes_boxes (self : TERuleQueryTab) :
  let chosen := List.filter (λ b, b.1.1) (ruletype_boxes self) in
  checked_ruletypes self
  = ((λ b, b.1.2) <$> chosen, sum_list ((λ b, b.2) <$> chosen)).
Proof.
  unfold checked_ruletypes, ruletype_boxes, add_ruletype.
  destruct (allow self), (auditallow self), (neverallow self),
    (dontaudit self), (type_transition self), (type_member self),
    (type_change self); simpl; f_equal; lia.
Qed.

Lemma format_broad_question (s : string) :
  format "This is a broad query, estimated to return {0} results.  Continue?"
         [s]
  = inr ("This is a broad query, estimated to return " +:+ s +:+
         " results.  Continue?").
Proof.
  by apply (format_one_field "This is a broad query, estimated to return "
                             " results.  Continue?").
Qed.

(** C8: [run] assigns to the [ruletype] criterion the kinds of the boxes
    that are checked, in the order allow, auditallow, neverallow, dontaudit,
    type_transition, type_member, type_change, and its estimate
    [max_results] is the sum of the policy's counts for those kinds; the
    estimate is what the question about a broad query quotes. *)
Theorem run_assigns_checked_ruletypes reply (self : TERuleQueryTab) :
  let chosen := List.filter (λ b, b.1.1) (ruletype_boxes self) in
  let kinds := (λ b, b.1.2) <$> chosen in
  let estimate := sum_list ((λ b, b.2) <$> chosen) in
  (λ b, b.1.2) <$> ruletype_boxes self
  = ["allow"; "auditallow"; "neverallow"; "dontaudit"; "type_transition";
     "type_member"; "type_change"] ∧
  checked_ruletypes self = (kinds, estimate) ∧
  ∃ self',
    run reply self = (inr tt, self') ∧
    TERuleQuery.ruletype (query self') = kinds ∧
    questions self'
    = questions self ++
      (if is_broad (query self)
       then ["This is a broad query, estimated to return " +:+ str estimate
             +:+ " results.  Continue?"]
       else []) ∧
    thread_started self'
    = if is_broad (query self) && negb reply then thread_started self
      else true.
Proof.
  intros chosen kinds estimate. split; [done|].
  pose proof (checked_ruletypes_boxes self) as Hboxes.
  fold chosen kinds estimate in Hboxes. split; [done|].
  unfold run, start_processing. unfold_T. rewrite Hboxes. simpl.
  change (is_broad _) with (is_broad (query self)).
  destruct (is_broad (query self)); simpl.
  - rewrite format_broad_question. simpl.
    destruct reply; simpl; by eexists.
  - rewrite app_nil_r. by eexists.
Qed.

Transparent format.

End tab.

(** *** The worker *)

Section worker.
Import Worker.
Context {Rule Matcher : Type} `{Str Rule}.
Variable matches : TERuleQuery.t Rule Matcher → Rule → bool.

Abbreviation for_loop := (for_loop matches).
Abbreviation update := (update matches).
Abbreviation enumerate_next := (enumerate_next matches).
Abbreviation stream := (TERuleQuery.stream matches).

Local Arguments Nat.modulo : simpl never.
Opaque format.

Ltac unfold_W :=
  cbv [emit isInterruptionRequested log_info
       mbind M_bind bind mret M_ret ret raise get gets modify lift_result].

(** **** The generator and [enumerate] *)

Abbreviation left_over := (left_over matches).

Lemma enumerate_next_None e e' :
  enumerate_next e = (None, e') →
  stream (enum_iter e) = [] ∧
  e' = {| enum_iter := {| TERuleQuery.gen_query :=
                            TERuleQuery.gen_query (enum_iter e);
                          TERuleQuery.pending := [] |};
          enum_index := enum_index e |} ∧
  ∀ requested k,
    left_over requested (TERuleQuery.gen_query (enum_iter e)) k
              (TERuleQuery.pending (enum_iter e)) = [].
Proof.
  unfold enumerate_next, TERuleQuery.next, TERuleQuery.stream.
  destruct e as [[q rules] i]; simpl.
  induction rules as [|r rest IH]; simpl.
  - by intros [= <-].
  - destruct (matches q r); [done|]. apply IH.
Qed.

Lemma enumerate_next_Some e n item e' :
  enumerate_next e = (Some (n, item), e') →
  n = enum_index e ∧
  stream (enum_iter e) = item :: stream (enum_iter e') ∧
  enum_index e' = S (enum_index e) ∧
  TERuleQuery.gen_query (enum_iter e') = TERuleQuery.gen_query (enum_iter e) ∧
  ∀ requested k,
    left_over requested (TERuleQuery.gen_query (enum_iter e)) k
              (TERuleQuery.pending (enum_iter e))
    = if requested k then TERuleQuery.pending (enum_iter e')
      else left_over requested (TERuleQuery.gen_query (enum_iter e)) (S k)
                     (TERuleQuery.pending (enum_iter e')).
Proof.
  unfold enumerate_next, TERuleQuery.next, TERuleQuery.stream.
  destruct e as [[q rules] i]; simpl.
  induction rules as [|r rest IH]; simpl; [done|].
  destruct (matches q r) eqn:Hm.
  - intros [= <- <- <-]. done.
  - apply IH.
Qed.

(** **** The loop *)

(** The loop as a function of the stream of its generator: the values of
    [counter] and [results] and the iterator it leaves, and the events and
    tests it adds to the state. *)
Lemma for_loop_run requested e counter results w :
  enum_index e = S counter →
  let q := TERuleQuery.gen_query (enum_iter e) in
  let got := taken requested (checks w) (stream (enum_iter e)) in
  for_loop requested e counter results w
  = (inr (counter + length got, results ++ got,
          {| enum_iter :=
               {| TERuleQuery.gen_query := q;
                  TERuleQuery.pending :=
                    left_over requested q (checks w)
                              (TERuleQuery.pending (enum_iter e)) |};
             enum_index := S counter + length got |}),
     {| log := log w; query := query w; resultlist := resultlist w;
        trace := trace w ++ loop_events requested (checks w) (S counter)
                                        (stream (enum_iter e));
        checks := checks w + length got |}).
Proof.
  revert w.
  funelim (for_loop requested e counter results); intros w Hidx; cbv zeta.
  - (* an item was drawn *)
    destruct (enumerate_next_Some _ _ _ _ Hnext)
      as (-> & Hstream & Hidx' & Hq' & Hleft).
    rewrite Hstream, (Hleft requested (checks w)).
    rewrite Hidx in *. simpl.
    destruct (requested (checks w)) eqn:Hreq.
    + (* break *)
      unfold_W. unfold with_trace, with_checks. simpl.
      rewrite Hreq. simpl. rewrite <- !app_assoc. simpl.
      destruct e' as [[q' rules'] i']. simpl in *. subst q' i'.
      repeat f_equal; lia.
    + (* next iteration *)
      match goal with
      | IH : unit → _ |- _ => pose proof (IH tt tt false tt w) as IHloop
      end.
      unfold_W. unfold with_trace, with_checks. simpl. rewrite Hreq.
      destruct (bool_decide (S counter `mod` 10 = 0)); simpl.
      all: match goal with
           | |- context [for_loop _ _ _ _ ?w1] =>
               rewrite (IHloop w1 Hidx')
           end.
      all: simpl; rewrite <- !app_assoc; simpl; rewrite Hq'.
      all: repeat f_equal; lia.
  - (* the generator is exhausted *)
    match goal with
    | Hn : enumerate_next _ = (None, _) |- _ =>
        destruct (enumerate_next_None _ _ Hn) as (Hstream & -> & Hleft)
    end.
    rewrite Hstream, (Hleft requested (checks w)). simpl.
    unfold_W. unfold with_trace. simpl.
    rewrite app_nil_r. repeat f_equal; lia.
Qed.

(** The rules examined and the rules left: the matching rules among those
    examined are the items taken, in order, and when the last test read
    true the last rule examined is the last item taken. *)
Lemma left_over_split requested q k (rules : list Rule) :
  ∃ examined,
    rules = examined ++ left_over requested q k rules ∧
    List.filter (matches q) examined
    = taken requested k (List.filter (matches q) rules) ∧
    ∀ n, length (List.filter (matches q) examined) = S n →
         requested (k + n) = true →
         last examined = last (List.filter (matches q) examined).
Proof.
  revert k. induction rules as [|r rest IH]; intros k; simpl.
  - by exists [].
  - destruct (matches q r) eqn:Hm; simpl.
    + destruct (requested k) eqn:Hk.
      * exists [r]. simpl. by rewrite Hm.
      * destruct (IH (S k)) as (ex & Hsplit & Hfilter & Hlast).
        exists (r :: ex). simpl. rewrite Hm, Hfilter.
        split; [by f_equal|]. split; [done|].
        intros n Hlen Hreq. simpl in Hlen. rewrite <- Hfilter in *.
        destruct n as [|n]; [rewrite Nat.add_0_r in Hreq; congruence|].
        injection Hlen as Hlen.
        rewrite <- Nat.add_succ_comm in Hreq.
        specialize (Hlast n Hlen Hreq).
        destruct ex as [|x ex]; [done|].
        destruct (List.filter (matches q) (x :: ex)) as [|y l] eqn:Hf;
          [done|].
        by rewrite !last_cons_cons.
    + destruct (IH k) as (ex & Hsplit & Hfilter & Hlast).
      exists (r :: ex). simpl. rewrite Hm.
      split; [by f_equal|]. split; [done|].
      intros n Hlen Hreq. specialize (Hlast n Hlen Hreq).
      destruct ex as [|x ex]; [done|].
      by rewrite last_cons_cons.
Qed.

(** When the loop ends, however it ends, the policy's rules are those the
    generator has examined followed by those it still holds, and the
    matching rules among the former are the results; if the loop ended on
    a test that read true, the last rule examined is the last result, so
    that no rule after it has been examined. *)
Lemma for_loop_examines requested q w :
  ∃ examined counter results e' w',
    for_loop requested (enumerate (TERuleQuery.results q) 1) 0 [] w
    = (inr (counter, results, e'), w') ∧
    terules (TERuleQuery.policy q)
    = examined ++ TERuleQuery.pending (enum_iter e') ∧
    List.filter (matches q) examined = results ∧
    ∀ n, length results = S n → requested (checks w + n) = true →
         last examined = last results.
Proof.
  destruct (left_over_split requested q (checks w)
                            (terules (TERuleQuery.policy q)))
    as (examined & Hsplit & Hfilter & Hlast).
  exists examined. eexists _, _, _, _.
  split; [by apply for_loop_run|].
  unfold TERuleQuery.stream, TERuleQuery.results, enumerate. simpl.
  split; [done|]. split; [done|]. rewrite <- Hfilter. exact Hlast.
Qed.

(** **** The items taken *)

Lemma taken_prefix requested k (items : list Rule) :
  taken requested k items `prefix_of` items.
Proof.
  revert k. induction items as [|x rest IH]; intros k; simpl; [done|].
  apply prefix_cons. destruct (requested k); [apply prefix_nil | apply IH].
Qed.

Lemma taken_uncancelled requested k (items : list Rule) :
  (∀ j, requested j = false) → taken requested k items = items.
Proof.
  intros Hnever. revert k.
  induction items as [|x rest IH]; intros k; simpl; [done|].
  by rewrite Hnever, IH.
Qed.

Lemma taken_length requested k n (items : list Rule) :
  requested (k + n) = true → length (taken requested k items) ≤ n + 1.
Proof.
  revert k n. induction items as [|x rest IH]; intros k n Hreq; simpl; [lia|].
  destruct (requested k) eqn:Hk; simpl; [lia|].
  destruct n as [|n].
  - rewrite Nat.add_0_r in Hreq. congruence.
  - specialize (IH (S k) n). rewrite <- Nat.add_succ_comm in Hreq.
    specialize (IH Hreq). lia.
Qed.

(** **** The events of the loop *)

Lemma loop_events_drawn requested k n (items : list Rule) :
  drawn (loop_events requested k n items) = taken requested k items.
Proof.
  revert k n. induction items as [|x rest IH]; intros k n; simpl; [done|].
  unfold drawn in *. simpl. f_equal.
  destruct (requested k); [done|].
  rewrite omap_app, IH. by destruct (bool_decide _).
Qed.

Lemma loop_events_only requested k n (items : list Rule) :
  Forall is_loop_event (loop_events requested k n items).
Proof.
  revert k n. induction items as [|x rest IH]; intros k n; simpl.
  - by repeat constructor.
  - repeat (constructor; [done|]).
    destruct (requested k); [constructor|].
    apply Forall_app. split; [|apply IH].
    destruct (bool_decide _); by repeat constructor.
Qed.

(** An interruption test that reads true is the last event of the loop. *)
Lemma loop_events_stop requested k n (items : list Rule) i :
  loop_events requested k n items !! i = Some (IsInterruptionRequested true) →
  length (loop_events requested k n items) = S i.
Proof.
  revert k n i. induction items as [|x rest IH]; intros k n i; simpl.
  - by destruct i as [|[|i]].
  - destruct i as [|[|[|i]]]; simpl; try done.
    + intros [= Hreq]. by rewrite Hreq.
    + destruct (requested k); simpl; [done|].
      destruct (bool_decide _); simpl.
      * destruct i as [|i]; simpl; [done|].
        intros Hi. by rewrite (IH _ _ _ Hi).
      * intros Hi. by rewrite (IH _ _ _ Hi).
Qed.

(** Every item drawn is followed by its raw line and by an interruption
    test, before anything else is drawn. *)
Lemma loop_events_test requested k n (items : list Rule) i x :
  loop_events requested k n items !! i = Some (Next (Some x)) →
  loop_events requested k n items !! (i + 1) = Some (RawLine (str x)) ∧
  ∃ b, loop_events requested k n items !! (i + 2)
       = Some (IsInterruptionRequested b).
Proof.
  revert k n i. induction items as [|y rest IH]; intros k n i; simpl.
  - by destruct i as [|[|i]].
  - destruct i as [|[|[|i]]]; simpl; try done.
    + intros [= ->]. eauto.
    + destruct (requested k); simpl; [done|].
      destruct (bool_decide _); simpl.
      * destruct i as [|i]; simpl; [done|]. apply IH.
      * apply IH.
Qed.

(** **** [update] as a function of the stream *)

Lemma format_found (s : string) :
  format "{0} type enforcement rule(s) found." [s]
  = inr (s +:+ " type enforcement rule(s) found.").
Proof. by apply (format_one_field "" " type enforcement rule(s) found."). Qed.

Lemma update_run requested w :
  let q := query w in
  let items := List.filter (matches q) (terules (TERuleQuery.policy q)) in
  let got := taken requested (checks w) items in
  update requested w
  = (inr tt,
     {| log := log w ++
               [{| levelname := INFO;
                   message := str (length got)
                              +:+ " type enforcement rule(s) found." |}];
        query := q;
        resultlist := got;
        trace := trace w ++
                 BeginResetModel :: loop_events requested (checks w) 1 items
                 ++ [SetResultList got; EndResetModel; Finished];
        checks := checks w + length got |}).
Proof.
  intros q items got. unfold update.
  unfold_W. unfold with_trace. simpl.
  match goal with
  | |- context [for_loop requested ?e 0 [] ?w1] =>
      rewrite (for_loop_run requested e 0 [] w1 eq_refl)
  end.
  simpl. fold q items got. rewrite format_found. simpl.
  repeat (rewrite <- app_assoc; simpl). reflexivity.
Qed.

(** C10: [update] always returns, and it publishes once: the events it adds
    are [beginResetModel], the events of the loop, one assignment of the
    result list, [endResetModel] and one [finished]; among the events of the
    loop there is no assignment and no [finished].  The list assigned is the
    list of the items drawn from the generator, a prefix of what the
    generator would yield in full, and the count logged is its length. *)
Theorem update_publishes_once requested w :
  let q := query w in
  ∃ got evs w',
    update requested w = (inr tt, w') ∧
    got `prefix_of` List.filter (matches q) (terules (TERuleQuery.policy q)) ∧
    drawn evs = got ∧
    Forall is_loop_event evs ∧
    trace w' = trace w ++ BeginResetModel :: evs
                       ++ [SetResultList got; EndResetModel; Finished] ∧
    resultlist w' = got ∧
    log w' = log w ++
             [{| levelname := INFO;
                 message := str (length got)
                            +:+ " type enforcement rule(s) found." |}].
Proof.
  intros q. eexists _, _, _. split; [apply update_run|]. simpl.
  split; [apply taken_prefix|]. split; [apply loop_events_drawn|].
  split; [apply loop_events_only|]. done.
Qed.

(** C2: if the interruption is requested once [n] items have been consumed
    (the test after item [n + 1] reads true), the list that [update]
    assigns has at most [n + 1] items: [n] and the one in flight.  It is
    the list of the items drawn from the generator; each item drawn is
    followed by its raw line and by an interruption test before another is
    drawn, and a test that reads true is the last event of the loop, so
    nothing is drawn after it. *)
Theorem update_cancellation requested w n :
  requested (checks w + n) = true →
  ∃ evs w',
    update requested w = (inr tt, w') ∧
    length (resultlist w') ≤ n + 1 ∧
    drawn evs = resultlist w' ∧
    trace w' = trace w ++ BeginResetModel :: evs
                       ++ [SetResultList (resultlist w'); EndResetModel;
                           Finished] ∧
    (∀ i x, evs !! i = Some (Next (Some x)) →
            evs !! (i + 1) = Some (RawLine (str x)) ∧
            ∃ b, evs !! (i + 2) = Some (IsInterruptionRequested b)) ∧
    (∀ i, evs !! i = Some (IsInterruptionRequested true) →
          length evs = S i).
Proof.
  intros Hreq. eexists _, _. split; [apply update_run|]. simpl.
  split; [by apply taken_length|]. split; [apply loop_events_drawn|].
  split; [done|]. split; [apply loop_events_test | apply loop_events_stop].
Qed.

Transparent format.

End worker.

Lemma list_filter_sublist {A} (f : A → bool) (l : list A) :
  List.filter f l `sublist_of` l.
Proof.
  induction l as [|a l IH]; simpl; [done|].
  destruct (f a); by constructor.
Qed.

(** C6: two runs of [update] that are not interrupted, for the same query
    (and so the same policy), assign the same list: the rules of the policy
    that match the query, which is all that the generator yields, in the
    order in which the policy enumerates its rules. *)
Theorem update_uncancelled_is_stable {Rule Matcher : Type} `{Str Rule}
    (matches : TERuleQuery.t Rule Matcher → Rule → bool)
    (requested1 requested2 : nat → bool)
    (w1 w2 : Worker.ResultsUpdater) :
  (∀ k, requested1 k = false) →
  (∀ k, requested2 k = false) →
  Worker.query w1 = Worker.query w2 →
  let q := Worker.query w1 in
  let r1 := Worker.resultlist (Worker.update matches requested1 w1).2 in
  let r2 := Worker.resultlist (Worker.update matches requested2 w2).2 in
  r1 = TERuleQuery.stream matches (TERuleQuery.results q) ∧
  r1 = List.filter (matches q) (terules (TERuleQuery.policy q)) ∧
  r1 `sublist_of` terules (TERuleQuery.policy q) ∧
  r2 = r1.
Proof.
  intros Hno1 Hno2 Hq q r1 r2. subst r1 r2.
  rewrite !update_run. simpl. rewrite <- Hq. fold q.
  rewrite !taken_uncancelled by done.
  repeat split. apply list_filter_sublist.
Qed.

End terulequery_facts.

(** ** More on the worker *)

Module worker_facts.
Import terulequery.

Section worker.
Import Worker.
Context {Rule Matcher : Type} `{Str Rule}.
Variable matches : TERuleQuery.t Rule Matcher → Rule → bool.

Abbreviation update := (update matches).

Local Arguments Nat.modulo : simpl never.
Local Arguments Nat.div : simpl never.

(** The matching rules of the policy of the worker's query: the stream. *)
Abbreviation stream_of w :=
  (List.filter (matches (query w)) (terules (TERuleQuery.policy (query w)))).

(** **** Observations on the events of the loop *)

Lemma raw_lines_loop_events requested k n (items : list Rule) :
  raw_lines (loop_events requested k n items)
  = str <$> taken requested k items.
Proof.
  revert k n. induction items as [|x rest IH]; intros k n; simpl; [done|].
  unfold raw_lines in *. simpl. f_equal.
  destruct (requested k); [done|].
  rewrite omap_app, IH. by destruct (bool_decide _).
Qed.

Lemma answers_loop_events requested k n (items : list Rule) :
  length (answers (loop_events requested k n items))
  = length (taken requested k items) ∧
  ∀ i, S i < length (answers (loop_events requested k n items)) →
       answers (loop_events requested k n items) !! i = Some false.
Proof.
  revert k n. induction items as [|x rest IH]; intros k n; simpl.
  - split; [done|]. intros i Hi. simpl in Hi. lia.
  - unfold answers in *. simpl.
    destruct (requested k) eqn:Hk; simpl.
    + split; [done|]. intros i Hi. lia.
    + rewrite omap_app.
      replace (omap _ (if bool_decide (n `mod` 10 = 0)
                       then [YieldCurrentThread] else []))
        with (@nil bool) by (by destruct (bool_decide _)).
      simpl. destruct (IH (S k) (S n)) as [Hlen Hfalse].
      split; [by rewrite Hlen|].
      intros [|i] Hi; simpl; [done|]. apply Hfalse. lia.
Qed.

Lemma div10_step n :
  1 ≤ n →
  n / 10 - (n - 1) / 10 = if bool_decide (n `mod` 10 = 0) then 1 else 0.
Proof.
  intros Hn.
  pose proof (Nat.div_mod_eq n 10). pose proof (Nat.div_mod_eq (n - 1) 10).
  pose proof (Nat.mod_upper_bound (n - 1) 10).
  pose proof (Nat.mod_upper_bound n 10).
  case_bool_decide; lia.
Qed.

(** Without interruption the loop yields once for each multiple of ten
    among the indices it goes through. *)
Lemma yields_loop_events requested k n (items : list Rule) :
  (∀ j, requested j = false) → 1 ≤ n →
  yields (loop_events requested k n items)
  = (n + length items - 1) / 10 - (n - 1) / 10.
Proof.
  intros Hno. revert k n.
  induction items as [|x rest IH]; intros k n Hn; simpl.
  - replace (n + 0 - 1) with (n - 1) by lia. unfold yields. simpl. lia.
  - unfold yields in *. simpl. rewrite Hno, omap_app, length_app.
    rewrite (IH (S k) (S n)) by lia.
    replace (S n + length rest - 1) with (n + length rest) by lia.
    replace (n + S (length rest) - 1) with (n + length rest) by lia.
    replace (S n - 1) with n by lia.
    pose proof (div10_step n Hn) as Hstep.
    assert (n / 10 ≤ (n + length rest) / 10)
      by (apply Nat.Div0.div_le_mono; lia).
    assert ((n - 1) / 10 ≤ n / 10) by (apply Nat.Div0.div_le_mono; lia).
    destruct (bool_decide (n `mod` 10 = 0)); simpl in *; lia.
Qed.

(** The first test that reads true decides where the results stop. *)
Lemma taken_cut requested k j (items : list Rule) :
  requested (k + j) = true →
  (∀ i, i < j → requested (k + i) = false) →
  taken requested k items = take (S j) items.
Proof.
  revert k j. induction items as [|x rest IH]; intros k j Hj Hbefore; simpl;
    [done|].
  f_equal. destruct j as [|j].
  - rewrite Nat.add_0_r in Hj. rewrite Hj. by destruct rest.
  - assert (requested k = false) as ->.
    { rewrite <- (Nat.add_0_r k). apply Hbefore. lia. }
    apply IH.
    + by rewrite <- Nat.add_succ_comm in Hj.
    + intros i Hi. rewrite Nat.add_succ_comm. apply Hbefore. lia.
Qed.

Lemma taken_from requested k (items : list Rule) :
  (∀ j, k ≤ j → requested j = false) → taken requested k items = items.
Proof.
  revert k. induction items as [|x rest IH]; intros k Hno; simpl; [done|].
  rewrite Hno by lia. f_equal. apply IH. intros j Hj. apply Hno. lia.
Qed.

(** **** [update] *)

Ltac run_update requested w :=
  rewrite (terulequery_facts.update_run matches requested w); simpl.

(** X1: the lines that [update] sends with [raw_line] are the renderings
    of the rules it assigns to the result list, one line for each rule and
    in the same order, whether or not the run was interrupted. *)
Theorem update_raw_lines requested w :
  ∃ evs w',
    update requested w = (inr tt, w') ∧
    trace w' = trace w ++ evs ∧
    raw_lines evs = str <$> resultlist w'.
Proof.
  eexists _, _. split; [apply terulequery_facts.update_run|]. simpl.
  split; [done|]. unfold raw_lines. simpl. rewrite omap_app. simpl.
  rewrite app_nil_r. apply raw_lines_loop_events.
Qed.

(** X2: [update] asks for the interruption once for each rule it takes,
    after taking it: the tests made are as many as the results, and all
    but the last read false.  In particular no test is made when no rule
    is found. *)
Theorem update_tests_once_per_item requested w :
  ∃ evs w',
    update requested w = (inr tt, w') ∧
    trace w' = trace w ++ evs ∧
    length (answers evs) = length (resultlist w') ∧
    checks w' = checks w + length (resultlist w') ∧
    ∀ i, S i < length (answers evs) → answers evs !! i = Some false.
Proof.
  eexists _, _. split; [apply terulequery_facts.update_run|]. simpl.
  split; [done|]. unfold answers. simpl. rewrite omap_app. simpl.
  rewrite app_nil_r.
  destruct (answers_loop_events requested (checks w) 1 (stream_of w))
    as [Hlen Hfalse].
  split; [exact Hlen|]. split; [done|]. exact Hfalse.
Qed.

(** X3: when no rule of the policy matches the query, [update] empties the
    result list, logs that 0 rules were found and emits [finished], having
    drawn nothing and made no interruption test. *)
Theorem update_no_match requested w :
  Forall (λ r, matches (query w) r = false)
         (terules (TERuleQuery.policy (query w))) →
  update requested w
  = (inr tt,
     {| log := log w ++
               [{| levelname := INFO;
                   message := "0 type enforcement rule(s) found." |}];
        query := query w;
        resultlist := [];
        trace := trace w ++ [BeginResetModel; Next None; SetResultList [];
                             EndResetModel; Finished];
        checks := checks w |}).
Proof.
  intros Hnone. run_update requested w.
  assert (stream_of w = []) as ->.
  { induction Hnone as [|r rules Hr _ IH]; simpl; [done|]. by rewrite Hr. }
  simpl. by rewrite Nat.add_0_r.
Qed.

(** X4: a run that is not interrupted yields the thread once for every ten
    rules: the number of yields is the number of results divided by ten. *)
Theorem update_yields_every_ten requested w :
  (∀ k, requested k = false) →
  ∃ evs w',
    update requested w = (inr tt, w') ∧
    trace w' = trace w ++ evs ∧
    resultlist w' = stream_of w ∧
    yields evs = length (resultlist w') / 10.
Proof.
  intros Hno. eexists _, _.
  split; [apply terulequery_facts.update_run|]. simpl.
  split; [done|].
  rewrite terulequery_facts.taken_uncancelled by done.
  split; [done|].
  change (yields (BeginResetModel :: ?l)) with (yields l).
  unfold yields. rewrite omap_app, length_app. simpl.
  pose proof (yields_loop_events requested (checks w) 1 (stream_of w) Hno)
    as Hy.
  unfold yields in Hy. rewrite Hy by lia.
  replace (1 + length (stream_of w) - 1) with (length (stream_of w)) by lia.
  replace ((1 - 1) / 10) with 0 by done. lia.
Qed.

(** X5: the results stop at the first test that reads true: if the test
    after rule [j + 1] is the first to read true, the result list is the
    first [j + 1] matching rules (all of them if there are fewer). *)
Theorem update_stops_at_first_request requested w j :
  requested (checks w + j) = true →
  (∀ i, i < j → requested (checks w + i) = false) →
  resultlist (update requested w).2 = take (S j) (stream_of w).
Proof.
  intros Hj Hbefore. run_update requested w. by apply taken_cut.
Qed.

(** X6: a run starts the query afresh: after any run, interrupted or not,
    a further run during which no interruption is requested assigns all
    the matching rules, and the events of the earlier run stay in front
    of its own. *)
Theorem update_restarts requested w :
  let w1 := (update requested w).2 in
  (∀ k, checks w1 ≤ k → requested k = false) →
  resultlist (update requested w1).2 = stream_of w ∧
  trace w1 `prefix_of` trace (update requested w1).2.
Proof.
  intros w1 Hno. subst w1.
  rewrite (terulequery_facts.update_run matches requested
             (update requested w).2).
  revert Hno. run_update requested w. intros Hno.
  split; [by apply taken_from|]. by eexists.
Qed.

End worker.

End worker_facts.

(** ** More on the tab *)

Module tab_facts.
Import terulequery.

Section tab.
Import Tab.
Context {Rule Matcher : Type}.
Variable validate :
  TERuleQuery.field → bool → string → exn + option Matcher.

Abbreviation TERuleQueryTab :=
  (TERuleQueryTab (Rule := Rule) (Matcher := Matcher)).
Abbreviation slot := (slot validate).
Abbreviation regex_slot := (regex_slot validate).
Abbreviation setupUi_settings := (setupUi_settings validate).

Ltac unfold_T :=
  cbv [slot Tab.slot set_source set_target set_default_type
       regex_slot Tab.regex_slot clear_error
       setupUi_settings Tab.setupUi_settings
       set_source_regex set_target_regex set_default_regex
       clear_source_error clear_target_error clear_default_error
       _set_ruletypes set_all_ruletypes clear_all_ruletypes
       run start_processing
       TERuleQuery.assign_source TERuleQuery.assign_target
       TERuleQuery.assign_default
       on_query log_record try_except_Exception
       mbind M_bind bind mret M_ret ret raise get gets modify lift_result].


(** X8: once a refused text has marked a line edit, the slot connected to
    [textEdited] takes the mark off: the tool tip and the palette are the
    plain ones again, while the text, the query and the log stay as the
    refusal left them. *)
Theorem clear_error_after_refusal f (self : TERuleQueryTab) ex :
  validate f (slot_mode f self) (text (widget f self)) = inl ex →
  ∃ self1 self2,
    slot f self = (inr tt, self1) ∧
    palette (widget f self1) = error_palette ∧
    clear_error f self1 = (inr tt, self2) ∧
    widget f self2 = {| text := text (widget f self);
                        toolTip := plain_toolTip f;
                        palette := orig_palette |} ∧
    self2 = with_widget f (widget f self2) self1.
Proof.
  intros Hv.
  destruct f; simpl in Hv; unfold_T; simpl; rewrite Hv; simpl;
    by eexists _, _.
Qed.


(** **** The rule type boxes and [run] *)

(** What [run] does, whatever the boxes: it returns normally and the
    state it leaves is the one described case by case below. *)
Lemma run_returns reply (s : TERuleQueryTab) :
  ∃ s',
    run reply s = (inr tt, s') ∧
    TERuleQuery.ruletype (query s') = (checked_ruletypes s).1 ∧
    TERuleQuery.source_indirect (query s') = source_indirect s ∧
    TERuleQuery.target_indirect (query s') = target_indirect s ∧
    TERuleQuery.perms_equal (query s') = perms_equal s ∧
    TERuleQuery.boolean_equal (query s') = bools_equal s ∧
    (∀ f, criterion f (query s') = criterion f (query s) ∧
          regex_flag f (query s') = regex_flag f (query s) ∧
          widget f s' = widget f s ∧ regex_box f s' = regex_box f s) ∧
    TERuleQuery.tclass (query s') = TERuleQuery.tclass (query s) ∧
    TERuleQuery.perms (query s') = TERuleQuery.perms (query s) ∧
    TERuleQuery.boolean (query s') = TERuleQuery.boolean (query s) ∧
    is_broad (query s') = is_broad (query s) ∧
    log s' = log s ∧
    if is_broad (query s) && negb reply
    then busy s' = busy s ∧ raw_results s' = raw_results s ∧
         thread_started s' = thread_started s ∧
         length (questions s') = S (length (questions s))
    else busy s' = {| labelText := "Processing query..."; visible := true |} ∧
         raw_results s' = [] ∧ thread_started s' = true.
Proof.
  unfold_T. destruct (checked_ruletypes s) as [kinds n]. simpl.
  change (is_broad (TERuleQuery.set_boolean_equal _ _))
    with (is_broad (query s)).
  destruct (is_broad (query s)) eqn:Hbroad; simpl;
    [destruct reply|]; simpl;
    (eexists; split; [reflexivity|]; simpl;
     repeat split; try done; try (by intros []));
    rewrite ?length_app; simpl; lia.
Qed.


(** X11: [run] copies the four mode boxes (indirect source, indirect
    target, equal permissions, equal booleans) to the query and leaves the
    text criteria, their regex flags, the class, permission and boolean
    criteria, the line edits and the log as they were; so choosing rule
    types or modes never changes whether the query counts as broad. *)
Theorem run_copies_modes reply (self : TERuleQueryTab) :
  ∃ self',
    run reply self = (inr tt, self') ∧
    TERuleQuery.source_indirect (query self') = source_indirect self ∧
    TERuleQuery.target_indirect (query self') = target_indirect self ∧
    TERuleQuery.perms_equal (query self') = perms_equal self ∧
    TERuleQuery.boolean_equal (query self') = bools_equal self ∧
    (∀ f, criterion f (query self') = criterion f (query self) ∧
          regex_flag f (query self') = regex_flag f (query self) ∧
          widget f self' = widget f self) ∧
    TERuleQuery.tclass (query self') = TERuleQuery.tclass (query self) ∧
    TERuleQuery.perms (query self') = TERuleQuery.perms (query self) ∧
    TERuleQuery.boolean (query self') = TERuleQuery.boolean (query self) ∧
    is_broad (query self') = is_broad (query self) ∧
    log self' = log self.
Proof.
  destruct (run_returns reply self)
    as (s' & E & _ & Hsi & Hti & Hpe & Hbe & Hf & Hc & Hp & Hb & Hbr & Hl & _).
  exists s'. repeat split; try done; by destruct (Hf f) as (? & ? & ? & ?).
Qed.

(** X12: [run] starts the processing unless the query is broad and the
    user answers No.  When it starts, the busy dialog is shown with the
    label "Processing query...", the raw results are cleared and the thread
    is started; when it does not, the dialog, the raw results and the
    thread are left alone, one question having been asked. *)
Theorem run_starts_unless_declined reply (self : TERuleQueryTab) :
  ∃ self',
    run reply self = (inr tt, self') ∧
    if is_broad (query self) && negb reply
    then busy self' = busy self ∧ raw_results self' = raw_results self ∧
         thread_started self' = thread_started self ∧
         length (questions self') = S (length (questions self))
    else busy self' = {| labelText := "Processing query..."; visible := true |} ∧
         raw_results self' = [] ∧ thread_started self' = true.
Proof.
  destruct (run_returns reply self)
    as (s' & E & _ & _ & _ & _ & _ & _ & _ & _ & _ & _ & _ & Hstart).
  by exists s'.
Qed.

(** **** The settings made by [setupUi] *)

(** X13: the three calls that close the set-up of the criteria make the
    query consistent with the form: each regex flag of the query is the
    state of its box, and each line edit's text has been validated in that
    mode, so that it is the criterion and the line edit is plain if it was
    accepted, and the line edit is marked if it was refused.  The boxes and
    the texts are not changed. *)
Theorem setupUi_settings_consistent (self : TERuleQueryTab) :
  ∃ self',
    setupUi_settings self = (inr tt, self') ∧
    ∀ f,
      regex_flag f (query self') = regex_box f self ∧
      regex_box f self' = regex_box f self ∧
      text (widget f self') = text (widget f self) ∧
      match validate f (regex_box f self) (text (widget f self)) with
      | inr m =>
          criterion f (query self') = m ∧
          toolTip (widget f self') = plain_toolTip f ∧
          palette (widget f self') = orig_palette
      | inl ex =>
          criterion f (query self') = criterion f (query self) ∧
          toolTip (widget f self') = "Error: " +:+ str ex ∧
          palette (widget f self') = error_palette
      end.
Proof.
  destruct (validate TERuleQuery.Source (source_regex self)
                     (text (source self))) eqn:HvS,
           (validate TERuleQuery.Target (target_regex self)
                     (text (target self))) eqn:HvT,
           (validate TERuleQuery.Default (default_regex self)
                     (text (default_type self))) eqn:HvD.
  all: unfold_T; simpl; rewrite HvS; simpl; rewrite HvT; simpl;
    rewrite HvD; simpl.
  all: eexists; split; [reflexivity|].
  all: intros []; simpl; rewrite ?HvS, ?HvT, ?HvD; done.
Qed.

End tab.

End tab_facts.

(** ** The end of a run: [update_complete] *)

Module display_facts.
Import terulequery.

Section display.
Import Display.
Variable fitted : nat → nat.
Variable canceled : nat → bool.

Abbreviation update_complete := (update_complete fitted canceled).

Ltac unfold_D :=
  cbv [update_complete Display.update_complete wasCanceled call_
       resizeColumnsToContents resizeSection
       mbind M_bind bind mret M_ret ret raise get gets modify lift_result].

(** X14: when the busy dialog was not cancelled as [update_complete]
    begins, the columns get the widths that fit their contents, except that
    the permissions column (section 4) is pulled back to 400 if it would be
    wider: it ends no wider than 400. *)
Theorem update_complete_caps_permissions (v : View) :
  canceled (asked v) = false →
  (update_complete v).1 = inr tt ∧
  sectionSize (update_complete v).2 4 = fitted 4 `min` 400 ∧
  sectionSize (update_complete v).2 4 ≤ 400 ∧
  ∀ i, i ≠ 4 → sectionSize (update_complete v).2 i = fitted i.
Proof.
  intros Hask. unfold_D. simpl. rewrite Hask. simpl.
  destruct (bool_decide (400 < fitted 4)) eqn:Hwide; simpl;
    destruct (canceled (S (asked v))); simpl;
    destruct (canceled (S (S (asked v)))); simpl.
  all: try (apply bool_decide_eq_true in Hwide).
  all: try (apply bool_decide_eq_false in Hwide).
  all: repeat split; try lia.
  all: intros i Hi; by rewrite ?bool_decide_eq_false_2.
Qed.


End display.

End display_facts.

(** ** The completion lists of [setupUi] *)

Module completion_facts.
Import terulequery.
Import Completion.

(** **** The order on strings *)

Lemma compare_Lt_trans (a b c : string) :
  String.compare a b = Lt → String.compare b c = Lt →
  String.compare a c = Lt.
Proof.
  revert b c. induction a as [|x a IH]; intros [|y b] [|z c]; simpl;
    try done.
  unfold Ascii.compare.
  destruct (N.compare_spec (Ascii.N_of_ascii x) (Ascii.N_of_ascii y)),
           (N.compare_spec (Ascii.N_of_ascii y) (Ascii.N_of_ascii z)),
           (N.compare_spec (Ascii.N_of_ascii x) (Ascii.N_of_ascii z));
    try done; try lia; eauto.
Qed.

Lemma string_le_total : Total string_le.
Proof. intros a b. apply String.leb_total. Qed.

Lemma string_le_antisym : AntiSymm (=) string_le.
Proof. intros a b. apply String.leb_antisym. Qed.

Lemma string_le_trans : Transitive string_le.
Proof.
  intros a b c. unfold string_le, String.leb.
  destruct (String.compare a b) eqn:Hab; [| |done].
  - apply String.compare_eq_iff in Hab. by subst.
  - destruct (String.compare b c) eqn:Hbc; [| |done].
    + apply String.compare_eq_iff in Hbc. subst. by rewrite Hab.
    + by rewrite (compare_Lt_trans a b c Hab Hbc).
Qed.

#[local] Existing Instances string_le_total string_le_antisym string_le_trans.

(** [sorted] does not depend on the algorithm: it is the only ascending
    arrangement of its argument. *)
Lemma sorted_unique (l l' : list string) :
  Sorted string_le l' → l' ≡ₚ l → l' = sorted l.
Proof.
  intros Hsorted Hperm. apply (Sorted_unique string_le); [done| |].
  - apply Sorted_merge_sort, _.
  - unfold sorted. by rewrite merge_sort_Permutation.
Qed.

Section completion.
Context {TypeSym AttrSym : Type} `{Str TypeSym} `{Str AttrSym}.
Variable types : list TypeSym.
Variable typeattributes : list AttrSym.

Abbreviation typeattr_completion_list :=
  (typeattr_completion_list types typeattributes).
Abbreviation type_completion_list := (type_completion_list types).

(** X16: the completion list of the source and target line edits is in
    ascending order and holds the name of every type and of every
    attribute of the policy, each as many times as the policy lists it
    (nothing is dropped or merged); it is the only list with these two
    properties. *)
Theorem typeattr_completion_sorted :
  Sorted string_le typeattr_completion_list ∧
  typeattr_completion_list ≡ₚ (str <$> types) ++ (str <$> typeattributes) ∧
  length typeattr_completion_list = length types + length typeattributes ∧
  ∀ l, Sorted string_le l →
       l ≡ₚ (str <$> types) ++ (str <$> typeattributes) →
       l = typeattr_completion_list.
Proof.
  unfold Completion.typeattr_completion_list, sorted.
  split; [apply Sorted_merge_sort, _|].
  split; [apply merge_sort_Permutation|].
  split.
  - rewrite merge_sort_Permutation, length_app, !length_fmap. done.
  - intros l Hsorted Hperm. by apply sorted_unique.
Qed.

(** X17: every name that the default line edit offers for completion is
    also offered by the source and target line edits, and a name is offered
    for the default exactly when it is the name of a type. *)
Theorem type_completions_are_typeattr_completions (name : string) :
  (name ∈ type_completion_list ↔ ∃ t, t ∈ types ∧ str t = name) ∧
  (name ∈ type_completion_list → name ∈ typeattr_completion_list).
Proof.
  unfold Completion.type_completion_list,
    Completion.typeattr_completion_list, sorted.
  rewrite !merge_sort_Permutation. split.
  - rewrite list_elem_of_fmap. split.
    + intros (t & -> & Ht). by exists t.
    + intros (t & Ht & <-). by exists t.
  - intros Hin. apply elem_of_app. by left.
Qed.

End completion.

End completion_facts.

(** ** More on the factory of initial SIDs *)

Module factory_facts.
Import initsid initsid_facts.

Section policyrep.
Context `{Qpol}.

(** X18: the object that the factory returns for an argument resolving to
    the raw handle [h] is in the store, and its [statement()] is "sid ",
    the name that [h] has in the policy, a space and the rendering of the
    context that [h] has in the policy. *)
Theorem factory_then_statement p symbol h (σ : gmap objref InitialSID) :
  match symbol with
  | PyIsid h' => h' = h
  | PyOther a => qpol_isid_t_new p a = Found h
  end →
  ∃ r σ' o,
    initialsid_factory p symbol σ = (inr r, σ') ∧
    σ' !! r = Some o ∧
    statement o
    = inr ("sid " +:+ qpol_isid_name h p +:+ " " +:+
           qpol_context_str (qpol_isid_context h p) p).
Proof.
  intros Hres.
  destruct (factory_fresh_object p symbol h σ Hres) as (r & Hr & E).
  eexists r, _, _. split; [exact E|]. split; [apply lookup_insert_eq|].
  unfold statement, format. simpl. by rewrite append_empty_r.
Qed.

(** X19: the factory never changes or removes an [InitialSID] object that
    exists: when it fails, for whatever reason, the store is as it was, and
    when it succeeds the store has exactly one object more, the one
    returned, at an identity that was not in use. *)
Theorem factory_keeps_the_store p symbol (σ : gmap objref InitialSID) :
  σ ⊆ (initialsid_factory p symbol σ).2 ∧
  match (initialsid_factory p symbol σ).1 with
  | inl _ => (initialsid_factory p symbol σ).2 = σ
  | inr r =>
      σ !! r = None ∧
      dom (initialsid_factory p symbol σ).2 = {[r]} ∪ dom σ
  end.
Proof.
  assert (∀ h, initialsid_factory p symbol σ = new_InitialSID p h σ →
    σ ⊆ (initialsid_factory p symbol σ).2 ∧
    match (initialsid_factory p symbol σ).1 with
    | inl _ => (initialsid_factory p symbol σ).2 = σ
    | inr r =>
        σ !! r = None ∧
        dom (initialsid_factory p symbol σ).2 = {[r]} ∪ dom σ
    end) as Hnew.
  { intros h ->. destruct (new_InitialSID_fresh p h σ) as (r & Hr & ->).
    simpl. split; [by apply insert_subseteq|].
    split; [done|]. by rewrite dom_insert_L. }
  destruct symbol as [h|a]; [by apply (Hnew h)|].
  destruct (qpol_isid_t_new p a) as [h|m|m] eqn:Hctor.
  - apply (Hnew h). by apply factory_found.
  - destruct a as [n|r].
    + by rewrite (factory_value_error_name _ _ _ _ Hctor).
    + destruct (σ !! r) as [o|] eqn:Hr.
      * by rewrite (factory_value_error_object _ _ _ _ _ Hctor Hr).
      * cbv [initialsid_factory try_except_ValueError qpol_isid_t_call
             str_ctor_arg mbind M_bind bind mret M_ret ret raise get
             lift_result].
        by rewrite Hctor, Hr.
  - by rewrite (factory_type_error _ _ _ _ Hctor).
Qed.

End policyrep.

End factory_facts.

(** ** The claims on the fixtures *)

Module fixture_facts.

(** *** Initial SIDs *)

Section initsid.
Import initsid.
Existing Instance fixture.qpol.

Example kernel_statement :
  statement fixture.kernel_sid = inr "sid kernel system_u:system_r:kernel_t:s0".
Proof. reflexivity. Qed.

Example unknown_name_is_refused :
  initialsid_factory fixture.policy (PyOther (ByName "bogus")) ∅
  = (inl (InvalidInitialSid "bogus is not a valid initial sid"), ∅).
Proof. reflexivity. Qed.

Lemma devnull_not_in_policy : ¬ real_isid fixture.policy fixture.devnull.
Proof.
  intros [n Hn]. simpl in Hn. unfold fixture.lookup_isid in Hn. simpl in Hn.
  repeat match type of Hn with
         | context [if ?b then _ else _] => destruct b
         end; discriminate.
Qed.

(** Against C1 as stated: the handle [devnull] is not an initial SID of the
    fixture policy, and the factory wraps it all the same. *)
Lemma foreign_handle_is_wrapped :
  ¬ corresponds fixture.policy (PyIsid fixture.devnull) ∧
  initialsid_factory fixture.policy (PyIsid fixture.devnull) ∅
  = (inr 1%positive,
     {[ 1%positive := fixture.devnull_sid ]}).
Proof. split; [apply devnull_not_in_policy | reflexivity]. Qed.

(** Against C4 as stated: the second request for the handle [kernel]
    returns the object 2, not the object 1 that the first one built. *)
Lemma second_request_builds_another :
  ∃ σ1 σ2,
    initialsid_factory fixture.policy (PyIsid fixture.kernel) ∅
    = (inr 1%positive, σ1) ∧
    initialsid_factory fixture.policy (PyIsid fixture.kernel) σ1
    = (inr 2%positive, σ2) ∧
    σ2 !! 1%positive = Some fixture.kernel_sid ∧
    σ2 !! 2%positive = Some fixture.kernel_sid.
Proof. eexists _, _. repeat split. Qed.

Lemma builds_each_time_by_name :
  qpol_isid_t_new fixture.policy (ByName "kernel") = Found fixture.kernel ∧
  ∃ r1 r2 σ1 σ2,
    initialsid_factory fixture.policy (PyOther (ByName "kernel")) ∅
    = (inr r1, σ1) ∧
    initialsid_factory fixture.policy (PyOther (ByName "kernel")) σ1
    = (inr r2, σ2) ∧
    r1 ≠ r2 ∧
    σ2 !! r1 = Some fixture.kernel_sid ∧ σ2 !! r2 = Some fixture.kernel_sid.
Proof.
  split; [reflexivity|].
  destruct (initsid_facts.initialsid_factory_builds_each_time
              fixture.policy (PyOther (ByName "kernel")) fixture.kernel ∅
              eq_refl)
    as (r1 & r2 & σ1 & σ2 & E1 & E2 & Hne & _ & _ & H1 & H2).
  by exists r1, r2, σ1, σ2.
Defined.

(** Against C5 as stated: given the [InitialSID] object 1, the factory does
    not return it; the raw constructor refuses it and the [TypeError] goes
    through. *)
Lemma wrapped_symbol_is_not_returned :
  let σ : gmap objref InitialSID := {[ 1%positive := fixture.kernel_sid ]} in
  σ !! 1%positive = Some fixture.kernel_sid ∧
  initialsid_factory fixture.policy (PyOther (ByObject 1%positive)) σ
  = (inl (TypeError "argument 2 of type 'char const *'"), σ).
Proof. split; reflexivity. Qed.

Lemma dispatch_on_object :
  let σ : gmap objref InitialSID := {[ 1%positive := fixture.kernel_sid ]} in
  arg_alive (PyOther (ByObject 1%positive)) σ ∧
  (initialsid_factory fixture.policy (PyOther (ByObject 1%positive)) σ).1
  ≠ inr 1%positive.
Proof.
  intros σ.
  assert (arg_alive (PyOther (ByObject 1%positive)) σ) as Halive
    by (by exists fixture.kernel_sid).
  split; [exact Halive|].
  pose proof (initsid_facts.initialsid_factory_dispatch
                fixture.policy (PyOther (ByObject 1%positive)) σ Halive)
    as (_ & _ & _ & Hnot).
  by apply Hnot.
Defined.

End initsid.

(** *** The tab and the worker *)

Section terulequery.
Import terulequery.

Example three_boxes_checked :
  Tab.checked_ruletypes (fixture.tab "" "" "" false)
  = (["allow"; "dontaudit"; "type_change"], 6).
Proof. reflexivity. Qed.

Example httpd_rules_found :
  Worker.resultlist
    (Worker.update fixture.matches (λ _, false)
                   (fixture.worker fixture.httpd_query)).2
  = [fixture.rule1; fixture.rule2].
Proof. reflexivity. Qed.

(** The pattern "(" in the default line edit, regex box checked. *)
Lemma unbalanced_default_is_refused :
  fixture.validate TERuleQuery.Default true "("
  = inl (OtherError "missing ), unterminated subpattern") ∧
  ∃ self',
    Tab.set_default_type fixture.validate (fixture.tab "" "" "(" true)
    = (inr tt, self') ∧
    TERuleQuery.default (Tab.query self') = None ∧
    Tab.log self'
    = [{| levelname := ERROR;
          message := "Default type error: missing ), unterminated subpattern"
       |}] ∧
    palette (Tab.default_type self') = error_palette.
Proof.
  split; [reflexivity|].
  destruct (terulequery_facts.malformed_criterion_keeps_query
              fixture.validate TERuleQuery.Default
              (fixture.tab "" "" "(" true)
              (OtherError "missing ), unterminated subpattern") eq_refl)
    as (self' & E & _ & _ & _ & Hd & Hl & Hw).
  exists self'. split; [exact E|]. split; [exact Hd|]. split; [exact Hl|].
  change (Tab.default_type self') with (Tab.widget TERuleQuery.Default self').
  by rewrite Hw.
Defined.

(** The text "(" is accepted as a literal and refused once the source
    regex box is checked. *)
Lemma literal_refused_after_toggle :
  fixture.validate TERuleQuery.Source false "("
  = inr (Some (fixture.Exact "(")) ∧
  Tab.regex_box TERuleQuery.Source (fixture.tab "(" "" "" true) = true ∧
  ∃ self',
    Tab.set_source_regex fixture.validate true (fixture.tab "(" "" "" true)
    = (inr tt, self') ∧
    TERuleQuery.source_regex (Tab.query self') = true ∧
    TERuleQuery.source (Tab.query self') = None ∧
    toolTip (Tab.source self') = "Error: missing ), unterminated subpattern".
Proof.
  split; [reflexivity|]. split; [reflexivity|].
  destruct (terulequery_facts.regex_toggle_revalidates
              fixture.validate TERuleQuery.Source true
              (fixture.tab "(" "" "" true) eq_refl)
    as (self' & E & Hflag & _ & Hcase).
  exists self'. split; [exact E|]. split; [exact Hflag|].
  destruct Hcase as (Hc & _ & Htip & _). by split.
Defined.

(** The interruption requested once one item has been consumed. *)
Lemma cancelled_after_one :
  let requested := λ k, bool_decide (1 ≤ k) in
  let w := fixture.worker fixture.query in
  requested (Worker.checks w + 1) = true ∧
  ∃ evs w',
    Worker.update fixture.matches requested w = (inr tt, w') ∧
    length (Worker.resultlist w') ≤ 2 ∧
    Worker.drawn evs = Worker.resultlist w'.
Proof.
  intros requested w. split; [reflexivity|].
  destruct (terulequery_facts.update_cancellation
              fixture.matches requested w 1 eq_refl)
    as (evs & w' & E & Hlen & Hdrawn & _).
  by exists evs, w'.
Defined.

(** Two runs for the [httpd_t] query, neither interrupted. *)
Lemma httpd_runs_agree :
  let w := fixture.worker fixture.httpd_query in
  Worker.resultlist (Worker.update fixture.matches (λ _, false) w).2
  = List.filter (fixture.matches fixture.httpd_query)
                (terules fixture.policy) ∧
  Worker.resultlist (Worker.update fixture.matches (λ _, false) w).2
  `sublist_of` terules fixture.policy.
Proof.
  intros w.
  destruct (terulequery_facts.update_uncancelled_is_stable
              fixture.matches (λ _, false) (λ _, false) w w
              (λ _, eq_refl) (λ _, eq_refl) eq_refl)
    as (_ & Hfilter & Hsub & _).
  by split.
Defined.

End terulequery.

End fixture_facts.

(** ** More on the fixtures *)

Module fixture_more.
Import terulequery.

Example long_run_yields_twice :
  Worker.yields
    (Worker.trace (Worker.update fixture.matches (λ _, false)
                                 (fixture.worker fixture.long_query)).2)
  = 2.
Proof. vm_compute. reflexivity. Qed.

Example completions_in_order :
  Completion.typeattr_completion_list ["sshd_t"; "httpd_t"] ["domain"]
  = ["domain"; "httpd_t"; "sshd_t"].
Proof. vm_compute. reflexivity. Qed.

(** No rule has the source [nobody_t]. *)
Lemma nobody_finds_nothing :
  Forall (λ r, fixture.matches fixture.nobody_query r = false)
         (terules fixture.policy) ∧
  Worker.resultlist
    (Worker.update fixture.matches (λ _, false)
                   (fixture.worker fixture.nobody_query)).2 = [] ∧
  Worker.checks
    (Worker.update fixture.matches (λ _, false)
                   (fixture.worker fixture.nobody_query)).2 = 0.
Proof.
  assert (Forall (λ r, fixture.matches fixture.nobody_query r = false)
                 (terules fixture.policy)) as Hnone
    by (repeat constructor).
  split; [exact Hnone|].
  by rewrite (worker_facts.update_no_match fixture.matches (λ _, false)
                (fixture.worker fixture.nobody_query) Hnone).
Defined.

(** Twenty-five rules, no interruption: two yields. *)
Lemma long_run_yields :
  (∀ k : nat, (λ _ : nat, false) k = false) ∧
  ∃ evs w',
    Worker.update fixture.matches (λ _, false)
                  (fixture.worker fixture.long_query) = (inr tt, w') ∧
    Worker.trace w' = evs ∧
    Worker.yields evs = length (Worker.resultlist w') / 10.
Proof.
  split; [done|].
  destruct (worker_facts.update_yields_every_ten fixture.matches (λ _, false)
              (fixture.worker fixture.long_query) (λ _, eq_refl))
    as (evs & w' & E & Htrace & _ & Hyields).
  exists evs, w'. by repeat split.
Defined.

(** The second test is the first to read true: two results. *)
Lemma stops_after_two :
  let requested := λ k, bool_decide (1 ≤ k) in
  requested 1 = true ∧ (∀ i, i < 1 → requested i = false) ∧
  Worker.resultlist
    (Worker.update fixture.matches requested
                   (fixture.worker fixture.query)).2
  = [fixture.rule1; fixture.rule2].
Proof.
  intros requested.
  assert (∀ i, i < 1 → requested (0 + i) = false) as Hbefore.
  { intros i Hi. apply bool_decide_eq_false. lia. }
  split; [reflexivity|]. split; [exact Hbefore|].
  exact (worker_facts.update_stops_at_first_request fixture.matches requested
           (fixture.worker fixture.query) 1 eq_refl Hbefore).
Defined.

(** A run interrupted at its first test, then a run left alone. *)
Lemma rerun_after_interruption :
  let requested := λ k, bool_decide (k = 0) in
  let w1 := (Worker.update fixture.matches requested
                           (fixture.worker fixture.query)).2 in
  Worker.resultlist w1 = [fixture.rule1] ∧
  (∀ k, Worker.checks w1 ≤ k → requested k = false) ∧
  Worker.resultlist (Worker.update fixture.matches requested w1).2
  = [fixture.rule1; fixture.rule2; fixture.rule3].
Proof.
  intros requested w1.
  assert (∀ k, Worker.checks w1 ≤ k → requested k = false) as Hno.
  { intros k Hk. apply bool_decide_eq_false.
    change (Worker.checks w1) with 1 in Hk. lia. }
  split; [reflexivity|]. split; [exact Hno|].
  exact (proj1 (worker_facts.update_restarts fixture.matches requested
                  (fixture.worker fixture.query) Hno)).
Defined.

(** The pattern "(" is refused, then the text is edited. *)
Lemma mark_is_cleared :
  fixture.validate TERuleQuery.Default true "("
  = inl (OtherError "missing ), unterminated subpattern") ∧
  ∃ self1 self2,
    Tab.set_default_type fixture.validate (fixture.tab "" "" "(" true)
    = (inr tt, self1) ∧
    palette (Tab.default_type self1) = error_palette ∧
    Tab.clear_default_error self1 = (inr tt, self2) ∧
    palette (Tab.default_type self2) = orig_palette.
Proof.
  split; [reflexivity|].
  destruct (tab_facts.clear_error_after_refusal
              fixture.validate TERuleQuery.Default
              (fixture.tab "" "" "(" true)
              (OtherError "missing ), unterminated subpattern") eq_refl)
    as (self1 & self2 & E1 & Hmark & E2 & Hw & _).
  exists self1, self2. split; [exact E1|]. split; [exact Hmark|].
  split; [exact E2|].
  change (Tab.default_type self2) with (Tab.widget TERuleQuery.Default self2).
  by rewrite Hw.
Defined.

(** The permissions column would be 480 wide. *)
Lemma permissions_column_is_capped :
  (λ _ : nat, false) (Display.asked fixture.view) = false ∧
  fixture.fitted 4 = 480 ∧
  Display.sectionSize
    (Display.update_complete fixture.fitted (λ _, false) fixture.view).2 4
  = 400.
Proof.
  split; [reflexivity|]. split; [reflexivity|].
  destruct (display_facts.update_complete_caps_permissions
              fixture.fitted (λ _, false) fixture.view eq_refl)
    as (_ & Hcap & _).
  exact Hcap.
Defined.

Section initsid.
Import initsid.
Existing Instance fixture.qpol.

(** The initial SID [kernel], requested by name. *)
Lemma kernel_by_name_statement :
  qpol_isid_t_new fixture.policy (ByName "kernel") = Found fixture.kernel ∧
  ∃ r σ' o,
    initialsid_factory fixture.policy (PyOther (ByName "kernel")) ∅
    = (inr r, σ') ∧
    σ' !! r = Some o ∧
    statement o = inr "sid kernel system_u:system_r:kernel_t:s0".
Proof.
  split; [reflexivity|].
  exact (factory_facts.factory_then_statement
           fixture.policy (PyOther (ByName "kernel")) fixture.kernel ∅
           eq_refl).
Defined.

End initsid.

End fixture_more.
